(** * Task-plugin discovery and loading: gemini5.py and load_module.py

    A shallow embedding of the two discovery flows of the repository,

    - [get_task_info_list] and [load_task_module]  (src/gemini5.py),
    - [get_task_module]                            (src/load_module.py),

    over an explicit model of what they touch:

    - a directory tree; a path is the list of its components, and a
      directory lists its entries in the order [os.listdir] reports them;
    - files, described by what the two flows can observe of them: the text
      read from them, and the code a loader obtains from them;
    - the import machinery of [importlib]: the file loaders, the bytecode
      files the source loader keeps in [__pycache__] and prefers to the
      source while the modification time and the size of the source are
      the ones it recorded, and what the import system finds under a
      module name when a module is reloaded;
    - the interpreter: module objects with an identity, and the module
      table [sys.modules];
    - Python exceptions as an error channel, with the distinction the
      handlers of the source rely on: [except Exception] catches every
      class except the ones that derive from [BaseException] only.

    The functions run in a state-and-exception monad over the interpreter
    state and the bytecode files. The status messages the source prints are
    not modelled. Plugin code is taken to terminate; of what it does, the
    model keeps the names it binds in its module, the modules it imports,
    whether it stores its own module in [sys.modules], and how it ends. *)

From Stdlib Require Import String Ascii.
From stdpp Require Import gmap list fin_maps.

Set Default Proof Using "Type".
Local Set Warnings "-register-all".
Local Open Scope list_scope.

(** ** Python strings

    A [str] is a sequence of code points. *)

Abbreviation pystr := (list N).

Definition py (s : string) : pystr := N_of_ascii <$> list_ascii_of_string s.

(** [str.isspace] on one code point: the code points for which CPython's
    [_PyUnicode_IsWhitespace] answers true; [str.strip()] removes exactly
    these. *)
Definition py_isspace (c : N) : bool :=
  ((9 <=? c) && (c <=? 13) || (28 <=? c) && (c <=? 32)
   || (c =? 133) || (c =? 160) || (c =? 5760)
   || (8192 <=? c) && (c <=? 8202)
   || (c =? 8232) || (c =? 8233) || (c =? 8239) || (c =? 8287)
   || (c =? 12288))%N.

Fixpoint lstrip (s : pystr) : pystr :=
  match s with
  | [] => []
  | c :: s' => if py_isspace c then lstrip s' else s
  end.

Fixpoint rstrip (s : pystr) : pystr :=
  match s with
  | [] => []
  | c :: s' =>
      match rstrip s' with
      | [] => if py_isspace c then [] else [c]
      | r => c :: r
      end
  end.

(** [s.strip()] *)
Definition strip (s : pystr) : pystr := rstrip (lstrip s).

(** [s.endswith(suf)] *)
Definition endswith (s suf : pystr) : bool := bool_decide (suf `suffix_of` s).

(** ** Exceptions and results *)

Inductive exn : Set :=
  | ImportError | ModuleNotFoundError
  | FileNotFoundError | NotADirectoryError | IsADirectoryError
  | UnicodeDecodeError | SyntaxError
  | AttributeError | TypeError | ValueError | RuntimeError
  | SystemExit | KeyboardInterrupt | GeneratorExit.

(** [isinstance(e, Exception)]: the last three classes derive from
    [BaseException] directly. *)
Definition is_Exception (e : exn) : bool :=
  match e with
  | SystemExit | KeyboardInterrupt | GeneratorExit => false
  | _ => true
  end.

Inductive res (A : Type) : Type :=
  | Ret (a : A)
  | Raise (e : exn).
Arguments Ret {A} a.
Arguments Raise {A} e.

(** ** Python values, as far as the loaders look at them

    A callable is described by what calling it without arguments does. *)

Inductive value : Type :=
  | VNone
  | VInt (z : Z)
  | VStr (s : pystr)
  | VFun (r : outcome)
with outcome : Type :=
  | Returns (v : value)
  | Throws (e : exn).

(** [callable(v)] *)
Definition callable (v : value) : bool :=
  match v with VFun _ => true | _ => false end.

(** ** Plugin code

    Top-level code binds names in the namespace of the module it is
    executed in, imports other modules, which leaves them in [sys.modules]
    under their names unless these names are taken, may store the module
    it runs in in [sys.modules] under the module's name, and then either
    runs to completion or raises. *)

Record program : Type := {
  binds : gmap pystr value;
  imports : list pystr;
  registers : bool;
  finish : option exn
}.

(** A file, by what is read from it as UTF-8 text ([None]: the bytes do
    not decode) and by the code a loader obtains from its content: what
    the content compiles to as Python source, or what it holds as bytecode
    or as an extension module ([None]: source that does not compile,
    content that is no bytecode and no extension module). *)
Record file : Type := {
  text : option pystr;
  code : option program
}.

(** ** The directory tree

    A directory lists its entries in the order [os.listdir] reports them. *)

Inductive node : Type :=
  | File (f : file)
  | Dir (entries : list (pystr * node)).

Abbreviation path := (list pystr).

Definition dir_lookup (c : pystr) (es : list (pystr * node)) : option node :=
  snd <$> find (λ e, bool_decide (e.1 = c)) es.

Inductive lookup_result : Type :=
  | Found (n : node)
  | ENOENT
  | ENOTDIR.

Fixpoint resolve (n : node) (p : path) : lookup_result :=
  match p with
  | [] => Found n
  | c :: p' =>
      match n with
      | File _ => ENOTDIR
      | Dir es =>
          match dir_lookup c es with
          | Some n' => resolve n' p'
          | None => ENOENT
          end
      end
  end.

(** [os.path.join(p, c)] *)
Definition join (p : path) (c : pystr) : path := p ++ [c].

(** What the import system ([sys.meta_path], [sys.path]) finds under a
    module name (for a name with dots, below its parent package): a spec
    whose loader runs no Python code in an existing module object (a
    namespace package, which has no origin, a built-in or an extension
    module), a source file (the [__init__.py] of a package, or
    [<name>.py]), or a spec of another loader together with the code that
    loader executes (bytecode without source, a frozen module, ...). *)
Inductive found : Type :=
  | NoCode (origin : option path)
  | SourceFile (origin : path)
  | LoaderCode (origin : path) (body : program).

(** The environment of a call: the directory tree; for each path, the
    modification time in whole seconds and the size of what is there, the
    two numbers a bytecode file records of its source; whether the source
    loader can store bytecode for a source path ([__pycache__] can be
    written and [sys.dont_write_bytecode] is off); and what the import
    system finds under a module name. *)
Record env : Type := {
  root : node;
  stamp : path → N * N;
  bytecode_writable : path → bool;
  find_spec : pystr → option found
}.

(** [os.path.isdir], [os.path.isfile], [os.path.exists] *)
Definition isdir (E : env) (p : path) : bool :=
  match resolve (root E) p with Found (Dir _) => true | _ => false end.

Definition isfile (E : env) (p : path) : bool :=
  match resolve (root E) p with Found (File _) => true | _ => false end.

Definition exists_ (E : env) (p : path) : bool :=
  match resolve (root E) p with Found _ => true | _ => false end.

(** [os.listdir] *)
Definition listdir (E : env) (p : path) : res (list pystr) :=
  match resolve (root E) p with
  | Found (Dir es) => Ret (es.*1)
  | Found (File _) => Raise NotADirectoryError
  | ENOENT => Raise FileNotFoundError
  | ENOTDIR => Raise NotADirectoryError
  end.

(** [open(p, 'r', encoding='utf-8').read()] *)
Definition read_text (E : env) (p : path) : res pystr :=
  match resolve (root E) p with
  | Found (File f) =>
      match text f with
      | Some s => Ret s
      | None => Raise UnicodeDecodeError
      end
  | Found (Dir _) => Raise IsADirectoryError
  | ENOENT => Raise FileNotFoundError
  | ENOTDIR => Raise NotADirectoryError
  end.

(** ** Module objects and the interpreter state *)

(** A module object: its identity, its [__name__], the origin of its
    [__spec__] and its namespace. *)
Record module : Type := {
  mod_id : nat;
  mod_name : pystr;
  mod_origin : option path;
  mod_dict : gmap pystr value
}.

(** What [sys.modules] holds under a name: a module object made by
    [module_from_spec], known by its identity, or any other object. *)
Inductive object : Set :=
  | Loaded (id : nat)
  | Foreign.

#[global] Instance object_eq_dec : EqDecision object.
Proof. solve_decision. Defined.

(** [next_id] allocates module identities; [sys_modules] is the table
    [sys.modules]; [pycache] holds the bytecode files of [__pycache__], by
    the path of their source: the modification time and the size recorded
    of the source, and the code (bytecode files as the source loader writes
    them, which it checks against these two numbers); [exec_log] records
    every execution of code by a loader on behalf of the two flows, by the
    origin of the code and the module object it ran in. What the executed
    code runs in turn, by importing, is not recorded. *)
Record interp : Type := {
  next_id : nat;
  sys_modules : gmap pystr object;
  pycache : gmap path (N * N * program);
  exec_log : list (path * nat)
}.

(** Computations that read and update the interpreter state and may
    raise. *)
Definition M (A : Type) : Type := interp → res A * interp.

Definition ret {A} (a : A) : M A := λ st, (Ret a, st).

Definition raise {A} (e : exn) : M A := λ st, (Raise e, st).

Definition bind {A B} (c : M A) (k : A → M B) : M B :=
  λ st, match c st with
        | (Ret a, st') => k a st'
        | (Raise e, st') => (Raise e, st')
        end.

Definition lift {A} (r : res A) : M A := λ st, (r, st).

(** [try: c  except Exception: h] *)
Definition try_except {A} (c : M A) (h : M A) : M A :=
  λ st, match c st with
        | (Raise e, st') => if is_Exception e then h st' else (Raise e, st')
        | r => r
        end.

Declare Scope py_scope.
Delimit Scope py_scope with py.
Notation "'let!' x ':=' c 'in' k" := (bind c (λ x, k))
  (at level 10, x name, c at level 100, k at level 200,
   right associativity) : py_scope.
Local Open Scope py_scope.

(** [for x in l: acc = body(acc, x)] *)
Fixpoint for_each {A S} (body : S → A → M S) (l : list A) (acc : S) : M S :=
  match l with
  | [] => ret acc
  | x :: l' => let! acc' := body acc x in for_each body l' acc'
  end.

(** ** The import machinery used by both loaders *)

(** The file loaders of [importlib], in the order in which
    [spec_from_file_location] tries them, each with the file name ending it
    serves (CPython on a POSIX system; every ending of an extension module
    ends in [.so]). An extension module is taken to be initialised in the
    module object created for it, as source and bytecode are executed in
    theirs. *)
Inductive loader : Set :=
  | ExtensionFileLoader
  | SourceFileLoader
  | SourcelessFileLoader.

Definition file_loaders : list (pystr * loader) :=
  [(py ".so", ExtensionFileLoader);
   (py ".py", SourceFileLoader);
   (py ".pyc", SourcelessFileLoader)].

Record module_spec : Type := {
  spec_name : pystr;
  spec_loader : loader;
  spec_origin : path
}.

(** [importlib.util.spec_from_file_location(name, location)]: [None] when
    no file loader serves the end of the location. *)
Definition spec_from_file_location (name : pystr) (location : path)
  : option module_spec :=
  match last location with
  | Some c =>
      match find (λ sl, endswith c sl.1) file_loaders with
      | Some sl =>
          Some {| spec_name := name; spec_loader := sl.2;
                  spec_origin := location |}
      | None => None
      end
  | None => None
  end.

(** [importlib.util.module_from_spec(spec)]: a new module object. The
    attributes the import machinery sets on it ([__name__], [__spec__],
    ...) are left out of [mod_dict]; no hook name collides with them. *)
Definition new_module (spec : module_spec) (st : interp) : module :=
  {| mod_id := next_id st; mod_name := spec_name spec;
     mod_origin := Some (spec_origin spec); mod_dict := ∅ |}.

Definition allocated (st : interp) : interp :=
  {| next_id := S (next_id st); sys_modules := sys_modules st;
     pycache := pycache st; exec_log := exec_log st |}.

Definition module_from_spec (spec : module_spec) : M module :=
  λ st, (Ret (new_module spec st), allocated st).

(** Reading the file at [p] for its code; [unusable] is raised when the
    content yields none. *)
Definition read_code (E : env) (p : path) (unusable : exn) : res program :=
  match resolve (root E) p with
  | Found (File f) =>
      match code f with
      | Some prog => Ret prog
      | None => Raise unusable
      end
  | Found (Dir _) => Raise IsADirectoryError
  | ENOENT => Raise FileNotFoundError
  | ENOTDIR => Raise NotADirectoryError
  end.

(** The bytecode file kept for the source at [p], if it is to be used:
    the source can be examined, and its modification time and size are the
    ones the bytecode file records. *)
Definition cached_bytecode (E : env) (cache : gmap path (N * N * program))
    (p : path) : option program :=
  if exists_ E p then
    match cache !! p with
    | Some (recorded, prog) =>
        if decide (recorded = stamp E p) then Some prog else None
    | None => None
    end
  else None.

(** The code [loader.get_code] returns for the file at [p]. The source
    loader takes the bytecode file if there is one to be used, and
    otherwise reads and compiles the source; the other loaders read the
    file itself. *)
Definition code_of (E : env) (cache : gmap path (N * N * program))
    (l : loader) (p : path) : res program :=
  match l with
  | SourceFileLoader =>
      match cached_bytecode E cache p with
      | Some prog => Ret prog
      | None => read_code E p SyntaxError
      end
  | SourcelessFileLoader => read_code E p ImportError
  | ExtensionFileLoader =>
      match read_code E p ImportError with
      | Ret prog => Ret prog
      | Raise _ => Raise ImportError
      end
  end.

(** After compiling a source the source loader stores the bytecode, with
    the modification time and the size of the source, where it can. *)
Definition cache_bytecode (E : env) (l : loader) (p : path) (prog : program)
    (st : interp) : interp :=
  match l, cached_bytecode E (pycache st) p with
  | SourceFileLoader, None =>
      if bytecode_writable E p
      then {| next_id := next_id st; sys_modules := sys_modules st;
              pycache := <[p := (stamp E p, prog)]> (pycache st);
              exec_log := exec_log st |}
      else st
  | _, _ => st
  end.

(** [loader.get_code] *)
Definition get_code (E : env) (l : loader) (p : path) : M program :=
  λ st,
    match code_of E (pycache st) l p with
    | Ret prog => (Ret prog, cache_bytecode E l p prog st)
    | Raise e => (Raise e, st)
    end.

(** Running the code [p], obtained from [origin], in the module object
    [m]: the names it binds are added to the namespace of [m] (rebinding
    the ones already there), the modules it imports are entered in
    [sys.modules] under the names that are free, [m] is stored in
    [sys.modules] if the code does that, and the execution is recorded. *)
Definition executed (p : program) (m : module) : module :=
  {| mod_id := mod_id m; mod_name := mod_name m; mod_origin := mod_origin m;
     mod_dict := binds p ∪ mod_dict m |}.

Definition imported (p : program) : gmap pystr object :=
  list_to_map ((λ n, (n, Foreign)) <$> imports p).

Definition after_run (p : program) (origin : path) (m : module)
    (st : interp) : interp :=
  {| next_id := next_id st;
     sys_modules :=
       if registers p
       then <[mod_name m := Loaded (mod_id m)]> (sys_modules st ∪ imported p)
       else sys_modules st ∪ imported p;
     pycache := pycache st;
     exec_log := exec_log st ++ [(origin, mod_id m)] |}.

Definition run (p : program) (origin : path) (m : module) : M module :=
  λ st,
    match finish p with
    | None => (Ret (executed p m), after_run p origin m st)
    | Some e => (Raise e, after_run p origin m st)
    end.

(** [spec.loader.exec_module(module)]: get the code of the file at the
    origin of the spec and run it in the module. *)
Definition exec_module (E : env) (spec : module_spec) (m : module)
  : M module :=
  let! prog := get_code E (spec_loader spec) (spec_origin spec) in
  run prog (spec_origin spec) m.

(** The origin of a spec the import system finds. *)
Definition found_origin (fd : found) : option path :=
  match fd with
  | NoCode origin => origin
  | SourceFile origin => Some origin
  | LoaderCode origin _ => Some origin
  end.

Definition with_origin (origin : option path) (m : module) : module :=
  {| mod_id := mod_id m; mod_name := mod_name m; mod_origin := origin;
     mod_dict := mod_dict m |}.

(** Executing a spec the import system found in the module [m], which is
    registered in [sys.modules] (the [_exec] of [importlib._bootstrap]). *)
Definition exec_found (E : env) (fd : found) (m : module) : M module :=
  match fd with
  | NoCode _ => ret m
  | SourceFile origin =>
      let! prog := get_code E SourceFileLoader origin in
      run prog origin m
  | LoaderCode origin body => run body origin m
  end.

(** [importlib.reload(module)]: raises [ImportError] unless [module] is the
    very object stored in [sys.modules] under its name; otherwise it looks
    the name up through the import system ([ModuleNotFoundError] if that
    finds nothing), makes what is found the spec of the module, executes it
    in the module, whose namespace is kept and updated, and returns the
    module stored under the name. *)
Definition reload (E : env) (m : module) : M module :=
  λ st,
    if bool_decide (sys_modules st !! mod_name m = Some (Loaded (mod_id m)))
    then
      match find_spec E (mod_name m) with
      | Some fd => exec_found E fd (with_origin (found_origin fd) m) st
      | None => (Raise ModuleNotFoundError, st)
      end
    else (Raise ImportError, st).

(** [hasattr(module, name)] *)
Definition hasattr (m : module) (name : pystr) : bool :=
  bool_decide (is_Some (mod_dict m !! name)).

(** [callable(getattr(module, name))] under [hasattr(module, name)] *)
Definition callable_attr (m : module) (name : pystr) : bool :=
  match mod_dict m !! name with
  | Some v => callable v
  | None => false
  end.

(** [getattr(module, name)()] *)
Definition call_attr (m : module) (name : pystr) : res value :=
  match mod_dict m !! name with
  | None => Raise AttributeError
  | Some (VFun (Returns v)) => Ret v
  | Some (VFun (Throws e)) => Raise e
  | Some _ => Raise TypeError
  end.

(** ** src/gemini5.py *)

Definition REQUIRED_FUNCTIONS : list pystr :=
  [py "get_description"; py "pre_proc"; py "main_proc"; py "post_proc"].

Record TaskModuleInfo : Type := {
  name : pystr;
  description : pystr;
  main_py_path : path;
  module_id : pystr
}.

(** The loop over [REQUIRED_FUNCTIONS] in [load_task_module]: it leaves with
    [None] at the first name that is missing or not callable. *)
Fixpoint check_required (fs : list pystr) (m : module) : option module :=
  match fs with
  | [] => Some m
  | func_name :: fs' =>
      if negb (hasattr m func_name) || negb (callable_attr m func_name)
      then None
      else check_required fs' m
  end.

Definition load_task_module (E : env) (task_info : TaskModuleInfo)
  : M (option module) :=
  try_except
    (match spec_from_file_location (module_id task_info)
             (main_py_path task_info) with
     | None => ret None
     | Some spec =>
         let! module := module_from_spec spec in
         let! module := exec_module E spec module in
         ret (check_required REQUIRED_FUNCTIONS module)
     end)
    (ret None).

(** One round of the loop of [get_task_info_list]; returning the list
    unchanged stands for [continue]. *)
Definition task_info_step (E : env) (task_folder : path)
    (task_infos : list TaskModuleInfo) (subdir_name : pystr)
  : M (list TaskModuleInfo) :=
  let subdir_path := join task_folder subdir_name in
  let main_py_path := join subdir_path (py "main.py") in
  let name_txt_path := join subdir_path (py "name.txt") in
  if negb (exists_ E main_py_path) || negb (exists_ E name_txt_path)
  then ret task_infos
  else
    try_except
      (let! contents := lift (read_text E name_txt_path) in
       let description := strip contents in
       match description with
       | [] => ret task_infos
       | _ =>
           ret (task_infos ++
                  [{| name := subdir_name;
                      description := description;
                      main_py_path := main_py_path;
                      module_id := subdir_name ++ py "_main" |}])
       end)
      (ret task_infos).

Definition get_task_info_list (E : env) (task_folder : path)
  : M (list TaskModuleInfo) :=
  if negb (isdir E task_folder)
  then ret []
  else
    let! names := lift (listdir E task_folder) in
    for_each (task_info_step E task_folder) names [].

(** The example run at the end of the file (the [__main__] block): list
    the descriptors of [test_dir], take the first one, load it and call its
    [main_proc]. The value returned tells which of the closing messages is
    printed; an exception raised by [main_proc] is not handled. *)
Definition test_dir : path := [py "test_tasks_txt"].

Inductive report : Set :=
  | NoTask
  | NotLoaded
  | Ran.

Definition main (E : env) : M report :=
  let! task_list := get_task_info_list E test_dir in
  match task_list with
  | [] => ret NoTask
  | selected_task_info :: _ =>
      let! loaded_module := load_task_module E selected_task_info in
      match loaded_module with
      | Some loaded_module =>
          let! _ := lift (call_attr loaded_module (py "main_proc")) in
          ret Ran
      | None => ret NotLoaded
      end
  end.

(** ** src/load_module.py *)

Definition required_funcs : list pystr :=
  [py "pre_proc"; py "post_proc"; py "main_proc"; py "get_name"].

(** The inner [try] of [get_task_module]: call [get_name] and keep the
    result if it is a [str]; [None] stands for [continue]. *)
Definition task_name_of (m : module) : M (option pystr) :=
  try_except
    (let! task_name := lift (call_attr m (py "get_name")) in
     match task_name with
     | VStr s => ret (Some s)
     | _ => ret None
     end)
    (ret None).

(** One round of the loop of [get_task_module]. *)
Definition task_module_step (E : env) (task_path : path)
    (acc : list pystr * list module) (entry : pystr)
  : M (list pystr * list module) :=
  let folder_path := join task_path entry in
  if negb (isdir E folder_path) then ret acc
  else
    let main_file := join folder_path (py "main.py") in
    if negb (isfile E main_file) then ret acc
    else
      try_except
        (match spec_from_file_location entry main_file with
         | None => ret acc
         | Some spec =>
             let! module := module_from_spec spec in
             let! module := exec_module E spec module in
             let! module := reload E module in
             if negb (forallb (hasattr module) required_funcs) then ret acc
             else
               let! task_name := task_name_of module in
               match task_name with
               | None => ret acc
               | Some task_name =>
                   ret (acc.1 ++ [task_name], acc.2 ++ [module])
               end
         end)
        (ret acc).

Definition get_task_module (E : env) (task_path : path)
  : M (list pystr * list module) :=
  let! entries := lift (listdir E task_path) in
  for_each (task_module_step E task_path) entries ([], []).

(** ** Vocabulary of the statements *)

(** Module identities that occur in the interpreter state have been
    allocated: every state reached from an interpreter start-up satisfies
    this. *)
Definition well_formed (st : interp) : Prop :=
  (∀ n i, sys_modules st !! n = Some (Loaded i) → i < next_id st) ∧
  (∀ p i, (p, i) ∈ exec_log st → i < next_id st).

(** The entry point of the candidate [entry] below [task_path]. *)
Definition entry_point (task_path : path) (entry : pystr) : path :=
  join (join task_path entry) (py "main.py").

(** [entry] is a candidate of the eager flow: a directory with a file
    [main.py]. *)
Definition is_candidate (E : env) (task_path : path) (entry : pystr) : bool :=
  isdir E (join task_path entry) && isfile E (entry_point task_path entry).

(** The state after the loader [l] has obtained the code [prog] from [p]
    and run it in the module [m]. *)
Definition after_exec (E : env) (l : loader) (p : path) (prog : program)
    (m : module) (st : interp) : interp :=
  after_run prog p m (cache_bytecode E l p prog st).

(** In the state [st'] the loaders obtain the same code as in [st]. *)
Definition same_code (E : env) (st st' : interp) : Prop :=
  ∀ l p, code_of E (pycache st') l p = code_of E (pycache st) l p.

(** The code the source loader obtains for the entry point of [entry], with
    the bytecode files of the state [st]. *)
Definition entry_code (E : env) (st : interp) (task_path : path)
    (entry : pystr) : res program :=
  code_of E (pycache st) SourceFileLoader (entry_point task_path entry).

(** [entry] is a candidate whose entry point yields code. *)
Definition has_code (E : env) (st : interp) (task_path : path)
    (entry : pystr) : bool :=
  is_candidate E task_path entry &&
  match entry_code E st task_path entry with
  | Ret _ => true
  | Raise _ => false
  end.

(** The code [load_task_module] obtains for a descriptor, with the bytecode
    files of the state [st]; [None] when no file loader serves the path. *)
Definition loaded_code (E : env) (st : interp) (task_info : TaskModuleInfo)
  : option (res program) :=
  (λ spec, code_of E (pycache st) (spec_loader spec) (spec_origin spec))
    <$> spec_from_file_location (module_id task_info)
          (main_py_path task_info).

(** The code [importlib.reload] executes for a spec the import system
    found, with the bytecode files of the state [st]; [Ret None] when the
    spec comes with no code. *)
Definition found_code (E : env) (st : interp) (fd : found)
  : res (option program) :=
  match fd with
  | NoCode _ => Ret None
  | SourceFile origin =>
      match code_of E (pycache st) SourceFileLoader origin with
      | Ret prog => Ret (Some prog)
      | Raise e => Raise e
      end
  | LoaderCode _ body => Ret (Some body)
  end.

(** The names such code binds. *)
Definition body_binds (body : option program) : gmap pystr value :=
  match body with
  | Some prog => binds prog
  | None => ∅
  end.

(** The code of no entry point below [task_path] stores its module in
    [sys.modules]. *)
Definition no_self_registration (E : env) (st : interp) (task_path : path)
  : Prop :=
  ∀ entry prog,
    entry_code E st task_path entry = Ret prog → registers prog = false.

(** The code of no entry point below [task_path] raises an exception that
    is not an [Exception]. *)
Definition only_Exceptions (E : env) (st : interp) (task_path : path)
  : Prop :=
  ∀ entry prog e,
    entry_code E st task_path entry = Ret prog →
    finish prog = Some e → is_Exception e = true.

(** The entries [os.listdir] reports for [p]; none if [p] is not a
    directory. *)
Definition entries_of (E : env) (p : path) : list pystr :=
  match listdir E p with
  | Ret l => l
  | Raise _ => []
  end.

(** The identity the metadata-first flow reads for [subdir_name]: the
    stripped text of its [name.txt], provided that [main.py] and [name.txt]
    exist, the text can be read and is not blank. *)
Definition sidecar_identity (E : env) (task_folder : path)
    (subdir_name : pystr) : option pystr :=
  let subdir_path := join task_folder subdir_name in
  if exists_ E (join subdir_path (py "main.py"))
     && exists_ E (join subdir_path (py "name.txt"))
  then
    match read_text E (join subdir_path (py "name.txt")) with
    | Ret contents =>
        match strip contents with
        | [] => None
        | label => Some label
        end
    | Raise _ => None
    end
  else None.

(** The descriptor built for [subdir_name] from the identity [label]. *)
Definition descriptor_of (task_folder : path) (subdir_name label : pystr)
  : TaskModuleInfo :=
  {| name := subdir_name;
     description := label;
     main_py_path := entry_point task_folder subdir_name;
     module_id := subdir_name ++ py "_main" |}.


(** ** Sample plugins, trees and states

    Concrete inputs on which the functions above are evaluated below. *)

Definition def (n : string) (v : value) : pystr * value := (py n, v).

(** A hook that returns [None] when called. *)
Definition hook : value := VFun (Returns VNone).

(** A function returning the string [s]. *)
Definition returns_str (s : string) : value := VFun (Returns (VStr (py s))).

(** A source file defining the hooks of both flows; the description hooks
    return [label]. *)
Definition valid_task (label : string) : program :=
  {| binds := list_to_map [def "get_name" (returns_str label);
                    def "get_description" (returns_str label);
                    def "pre_proc" hook; def "main_proc" hook;
                    def "post_proc" hook];
     imports := [];
     registers := false;
     finish := None |}.

(** A source file that only defines [main_proc]. *)
Definition only_main_proc : program :=
  {| binds := list_to_map [def "main_proc" hook];
     imports := [];
     registers := false;
     finish := None |}.

(** A source file lacking [pre_proc]. *)
Definition without_pre_proc : program :=
  {| binds := list_to_map [def "get_name" (returns_str "C");
                    def "get_description" (returns_str "C");
                    def "main_proc" hook; def "post_proc" hook];
     imports := [];
     registers := false;
     finish := None |}.

(** A source file whose top-level code calls [sys.exit()]. *)
Definition exits : program :=
  {| binds := ∅; imports := []; registers := false;
     finish := Some SystemExit |}.

(** A source file whose top-level code raises [ValueError]. *)
Definition fails : program :=
  {| binds := ∅; imports := []; registers := false;
     finish := Some ValueError |}.

(** [p], with top-level code that also stores its own module object in
    [sys.modules]. *)
Definition self_registering (p : program) : program :=
  {| binds := binds p; imports := imports p; registers := true;
     finish := finish p |}.

(** [p], with top-level code that also imports the modules [names]. *)
Definition importing (names : list pystr) (p : program) : program :=
  {| binds := binds p; imports := names ++ imports p;
     registers := registers p; finish := finish p |}.

(** An [__init__.py] that defines [pre_proc]. *)
Definition init_with_pre_proc : program :=
  {| binds := list_to_map [def "pre_proc" hook];
     imports := [];
     registers := false;
     finish := None |}.

(** A source file binding [pre_proc] to an integer. *)
Definition pre_proc_not_callable : program :=
  {| binds := list_to_map [def "get_name" (returns_str "A");
                    def "pre_proc" (VInt 1); def "main_proc" hook;
                    def "post_proc" hook];
     imports := [];
     registers := true;
     finish := None |}.

Definition source_file (p : program) : node :=
  File {| text := None; code := Some p |}.

(** A file that is no text and does not compile. *)
Definition broken_file : node :=
  File {| text := None; code := None |}.

Definition text_file (s : pystr) : node :=
  File {| text := Some s; code := None |}.

(** A plugin directory with [main.py] and [name.txt]. *)
Definition plugin_dir (p : program) (sidecar : pystr) : node :=
  Dir [(py "main.py", source_file p); (py "name.txt", text_file sidecar)].

(** A plugin directory with [main.py] only. *)
Definition code_dir (p : program) : node :=
  Dir [(py "main.py", source_file p)].

(** A plugin directory whose [main.py] does not compile. *)
Definition broken_dir : node :=
  Dir [(py "main.py", broken_file)].

(** A plugin directory that is a package: [main.py] next to
    [__init__.py]. *)
Definition package_dir (p init : program) : node :=
  Dir [(py "main.py", source_file p); (py "__init__.py", source_file init)].

(** A tree whose directory [tasks] holds the given plugin directories. *)
Definition tasks_tree (plugins : list (pystr * node)) : node :=
  Dir [(py "tasks", Dir plugins)].

Definition tasks : path := [py "tasks"].

(** The import system does not search [tasks]: it finds nothing under the
    names of the plugin directories. *)
Definition not_searched : pystr → option found := λ _, None.

(** The import system searches [tasks], and the plugin directories hold no
    [__init__.py]: it finds them as namespace packages. *)
Definition namespaces : pystr → option found := λ _, Some (NoCode None).

(** The import system searches [tasks], where [dir] is a package. *)
Definition package (dir : string) : pystr → option found :=
  λ n, if decide (n = py dir)
       then Some (SourceFile (tasks ++ [py dir; py "__init__.py"]))
       else Some (NoCode None).

(** Every file as it was last written at time 0, except the file at [p],
    written at time [t]. *)
Definition written_at (p : path) (t : N) : path → N * N :=
  λ q, if decide (q = p) then (t, 0%N) else (0%N, 0%N).

Definition unwritten : path → N * N := λ _, (0%N, 0%N).

Definition tasks_env (plugins : list (pystr * node))
    (finds : pystr → option found) : env :=
  {| root := tasks_tree plugins; stamp := unwritten;
     bytecode_writable := λ _, true; find_spec := finds |}.

Definition st0 : interp :=
  {| next_id := 0; sys_modules := ∅; pycache := ∅; exec_log := [] |}.

(** The layout of the end-to-end scenario, with a third directory whose
    [name.txt] is blank. *)
Definition scenario : env :=
  tasks_env [(py "task_A", plugin_dir (valid_task "A") (py " Alpha Task
"));
             (py "task_B", code_dir only_main_proc);
             (py "task_C", plugin_dir without_pre_proc (py "  	
 "))]
            not_searched.

(** One valid plugin next to one whose entry point does not compile. *)
Definition one_corrupt : env :=
  tasks_env [(py "task_A", code_dir (valid_task "A"));
             (py "task_B", broken_dir)]
            not_searched.

(** One plugin whose entry point exits the interpreter. *)
Definition one_exits : env :=
  tasks_env [(py "task_A", code_dir exits)] not_searched.

(** One plugin whose entry point raises [ValueError]. *)
Definition one_fails : env :=
  tasks_env [(py "task_A", code_dir fails)] not_searched.

(** One valid plugin that stores its own module in [sys.modules], in a
    tree the import system searches. *)
Definition one_registered : env :=
  tasks_env [(py "task_A", code_dir (self_registering (valid_task "A")))]
            namespaces.

(** The same for the plugin whose [pre_proc] is an integer. *)
Definition one_not_callable : env :=
  tasks_env [(py "task_A", code_dir pre_proc_not_callable)] namespaces.

(** Two self-registering plugins in a tree the import system searches:
    a valid one, and one without [pre_proc]. *)
Definition one_incomplete : env :=
  tasks_env [(py "task_A", code_dir (self_registering (valid_task "A")));
             (py "task_C", code_dir (self_registering without_pre_proc))]
            namespaces.

(** Two plugins with an identity, one whose [name.txt] is a directory and
    one whose [name.txt] does not decode. *)
Definition four_sidecars : env :=
  tasks_env [(py "task_A", plugin_dir (valid_task "A") (py "Alpha"));
             (py "task_D",
              Dir [(py "main.py", source_file (valid_task "D"));
                   (py "name.txt", Dir [])]);
             (py "task_U",
              Dir [(py "main.py", source_file (valid_task "U"));
                   (py "name.txt", broken_file)]);
             (py "task_B", plugin_dir only_main_proc (py "Beta "))]
            not_searched.




(** A source file with the hooks of the metadata-first flow whose
    [main_proc] raises [ValueError]. *)
Definition main_proc_raises : program :=
  {| binds := list_to_map [def "get_description" (returns_str "R");
                    def "pre_proc" hook;
                    def "main_proc" (VFun (Throws ValueError));
                    def "post_proc" hook];
     imports := [];
     registers := false;
     finish := None |}.

(** Trees for the example run: the directory [test_tasks_txt] with the
    given plugin directories. *)
Definition test_env (plugins : list (pystr * node)) : env :=
  {| root := Dir [(py "test_tasks_txt", Dir plugins)];
     stamp := unwritten;
     bytecode_writable := λ _, true;
     find_spec := not_searched |}.

Definition test_run : env :=
  test_env [(py "notes.txt", text_file (py "not a plugin"));
            (py "task_A", plugin_dir (valid_task "A") (py "Alpha"));
            (py "task_B", plugin_dir (valid_task "B") (py "Beta"))].

Definition test_run_raising : env :=
  test_env [(py "task_R", plugin_dir main_proc_raises (py "Raiser"));
            (py "task_A", plugin_dir (valid_task "A") (py "Alpha"))].

(** [scenario] after the entry point of [task_A] has been edited, so that
    its description hooks return another label: once saved a second later,
    and once saved within the same second and with the same size. *)
Definition scenario_plugins_edited : list (pystr * node) :=
  [(py "task_A", plugin_dir (valid_task "A2") (py " Alpha Task
"));
   (py "task_B", code_dir only_main_proc);
   (py "task_C", plugin_dir without_pre_proc (py "  	
 "))].

Definition scenario_edited : env :=
  {| root := tasks_tree scenario_plugins_edited;
     stamp := written_at (tasks ++ [py "task_A"; py "main.py"]) 1;
     bytecode_writable := λ _, true;
     find_spec := not_searched |}.



(** A package whose [main.py] lacks [pre_proc] and stores its own module
    in [sys.modules], and whose [__init__.py] defines [pre_proc], in a tree
    the import system searches. *)
Definition one_package : env :=
  tasks_env [(py "task_C",
              package_dir (self_registering without_pre_proc)
                init_with_pre_proc)]
            (package "task_C").

(** A valid plugin that imports [json], and one that stores its own module
    in [sys.modules] and imports [json] and the first one. *)
Definition two_importing : env :=
  tasks_env [(py "task_A", code_dir (importing [py "json"] (valid_task "A")));
             (py "task_B",
              code_dir (importing [py "json"; py "task_A"]
                          (self_registering (valid_task "B"))))]
            namespaces.

Definition descriptor (dir : string) (label : string) : TaskModuleInfo :=
  {| name := py dir;
     description := py label;
     main_py_path := tasks ++ [py dir; py "main.py"];
     module_id := py dir ++ py "_main" |}.

(** Enumerate the plugin directories of a sample tree. *)
Ltac each_plugin Hin :=
  repeat (apply elem_of_cons in Hin as [Hin|Hin]; [injection Hin as -> ->|]);
  [..|by apply elem_of_nil in Hin].

(** * Properties *)

(** ** Stripping *)

Lemma lstrip_nil s : lstrip s = [] ↔ forallb py_isspace s = true.
Proof.
  induction s as [|c s IH]; simpl; [done|].
  destruct (py_isspace c); simpl; [done|]. split; discriminate.
Qed.

Lemma rstrip_nil s : rstrip s = [] ↔ forallb py_isspace s = true.
Proof.
  induction s as [|c s IH]; simpl; [done|].
  destruct (rstrip s) as [|d r] eqn:Hr.
  - destruct (py_isspace c); simpl; [tauto|]. split; discriminate.
  - split; [discriminate|]. intros [_ H]%andb_true_iff.
    apply IH in H. discriminate.
Qed.

Lemma lstrip_space s :
  forallb py_isspace (lstrip s) = forallb py_isspace s.
Proof.
  induction s as [|c s IH]; simpl; [done|].
  destruct (py_isspace c) eqn:Hc; simpl; [done|by rewrite Hc].
Qed.

(** [s.strip()] is empty exactly when [s] consists of whitespace only. *)
Lemma strip_nil s : strip s = [] ↔ forallb py_isspace s = true.
Proof. unfold strip. by rewrite rstrip_nil, lstrip_space. Qed.

(** What is stripped on the left is whitespace, and what remains does not
    start with whitespace. *)
Lemma lstrip_spec s :
  ∃ pre, s = pre ++ lstrip s ∧ forallb py_isspace pre = true ∧
         ∀ c, head (lstrip s) = Some c → py_isspace c = false.
Proof.
  induction s as [|c s (pre & Hs & Hpre & Hhd)]; simpl.
  - by exists [].
  - destruct (py_isspace c) eqn:Hc.
    + exists (c :: pre). simpl. rewrite Hc, Hpre. by rewrite <- Hs.
    + exists []. simpl. split; [done|]. split; [done|]. by intros ? [= <-].
Qed.

(** The same on the right. *)
Lemma rstrip_spec s :
  ∃ post, s = rstrip s ++ post ∧ forallb py_isspace post = true ∧
          ∀ c, last (rstrip s) = Some c → py_isspace c = false.
Proof.
  induction s as [|c s (post & Hs & Hpost & Hl)]; simpl.
  - by exists [].
  - destruct (rstrip s) as [|d r] eqn:Hr.
    + destruct (py_isspace c) eqn:Hc.
      * exists (c :: post). simpl in *. rewrite Hc, Hpost. by rewrite <- Hs.
      * exists post. simpl in Hs. subst s. split; [done|]. split; [done|].
        by intros ? [= <-].
    + exists post. split; [by rewrite Hs at 1|]. split; [done|].
      by rewrite last_cons_cons.
Qed.

(** ** Loops *)

Section loops.
Context {A S : Type} (body : S → A → M S) (P : S → interp → Prop).

Lemma for_each_ind (l : list A) :
  (∀ acc x st acc' st',
      x ∈ l → P acc st → body acc x st = (Ret acc', st') → P acc' st') →
  ∀ acc st r st',
    P acc st → for_each body l acc st = (Ret r, st') → P r st'.
Proof.
  induction l as [|x l IH]; intros Hstep acc st r st' HP; simpl.
  - unfold ret. by intros [= <- <-].
  - unfold bind. destruct (body acc x st) as [[acc1|e] st1] eqn:Hb;
      [|discriminate].
    apply IH.
    + intros ????? Hin. apply Hstep. by right.
    + eapply Hstep; [left|done..].
Qed.

Lemma for_each_returns (l : list A) :
  (∀ acc x st,
      x ∈ l → P acc st →
      ∃ acc' st', body acc x st = (Ret acc', st') ∧ P acc' st') →
  ∀ acc st,
    P acc st → ∃ r st', for_each body l acc st = (Ret r, st') ∧ P r st'.
Proof.
  induction l as [|x l IH]; intros Hstep acc st HP; simpl.
  - by exists acc, st.
  - destruct (Hstep acc x st) as (acc1 & st1 & Hb & HP1); [left|done|].
    unfold bind. rewrite Hb. apply IH; [|done].
    intros ??? Hin. apply Hstep. by right.
Qed.
End loops.

Section loop_outcomes.
Context {A S : Type} (body : S → A → M S).
Context (P : S → interp → Prop) (Q : exn → interp → Prop).

(** A loop invariant [P], with [Q] for the rounds that raise. *)
Lemma for_each_outcome (l : list A) :
  (∀ acc x st r st',
      x ∈ l → P acc st → body acc x st = (r, st') →
      match r with Ret acc' => P acc' st' | Raise e => Q e st' end) →
  ∀ acc st r st',
    P acc st → for_each body l acc st = (r, st') →
    match r with Ret acc' => P acc' st' | Raise e => Q e st' end.
Proof.
  induction l as [|x l IH]; intros Hstep acc st r st' HP; simpl.
  - unfold ret. by intros [= <- <-].
  - unfold bind. destruct (body acc x st) as [[acc1|e] st1] eqn:Hb.
    + apply IH.
      * intros ????? Hin. apply Hstep. by right.
      * by apply (Hstep acc x st (Ret acc1) st1); [left|..].
    + intros [= <- <-]. by apply (Hstep acc x st (Raise e) st1); [left|..].
Qed.
End loop_outcomes.

(** ** The directory tree *)

Lemma isdir_resolve E p :
  isdir E p = true ↔ ∃ es, resolve (root E) p = Found (Dir es).
Proof.
  unfold isdir. destruct (resolve (root E) p) as [[f|es]| |];
    (split; [try discriminate; eauto|by intros [? [=]]]).
Qed.

Lemma dir_lookup_Some c es n :
  dir_lookup c es = Some n → (c, n) ∈ es.
Proof.
  unfold dir_lookup. destruct (find _ es) as [[c' n']|] eqn:Hf; [|done].
  intros [= <-]. apply find_some in Hf as [Hin Hc].
  apply bool_decide_eq_true in Hc. simpl in Hc. subst c'.
  by apply list_elem_of_In.
Qed.

(** ** Metadata-first discovery *)

(** A round of [get_task_info_list] never raises and leaves the interpreter
    alone; it either skips the entry or appends the descriptor built from the
    stripped, non-empty text of its [name.txt]. *)
Lemma task_info_step_cases E task_folder acc subdir_name st :
  task_info_step E task_folder acc subdir_name st = (Ret acc, st) ∨
  ∃ f s,
    resolve (root E) (join (join task_folder subdir_name) (py "name.txt"))
      = Found (File f) ∧
    text f = Some s ∧ strip s ≠ [] ∧
    task_info_step E task_folder acc subdir_name st =
      (Ret (acc ++ [{| name := subdir_name;
                       description := strip s;
                       main_py_path :=
                         join (join task_folder subdir_name) (py "main.py");
                       module_id := subdir_name ++ py "_main" |}]), st).
Proof.
  unfold task_info_step.
  destruct (negb (exists_ E _) || negb (exists_ E _)); [by left|].
  unfold try_except, bind, lift, read_text, ret.
  destruct (resolve (root E) _) as [[f|es]| |] eqn:Hres; simpl; try by left.
  destruct (text f) as [s|] eqn:Htext; simpl; [|by left].
  destruct (strip s) as [|c d] eqn:Hstrip; [by left|].
  right. exists f, s. rewrite Htext, Hstrip. done.
Qed.

(** C7. [get_task_info_list] returns, and every descriptor in its list
    carries a non-empty description that is the whitespace-stripped text of
    the [name.txt] next to it; a directory whose [name.txt] holds only
    whitespace has no descriptor in the list. *)
Theorem descriptions_stripped_nonempty E task_folder st :
  ∃ infos,
    get_task_info_list E task_folder st = (Ret infos, st) ∧
    (∀ info, info ∈ infos →
       description info ≠ [] ∧
       ∃ f s,
         resolve (root E)
           (join (join task_folder (name info)) (py "name.txt"))
           = Found (File f) ∧
         text f = Some s ∧ description info = strip s) ∧
    (∀ subdir_name f s,
       resolve (root E)
         (join (join task_folder subdir_name) (py "name.txt"))
         = Found (File f) →
       text f = Some s → forallb py_isspace s = true →
       ∀ info, info ∈ infos → name info ≠ subdir_name).
Proof.
  set (ok := λ info : TaskModuleInfo,
         description info ≠ [] ∧
         ∃ f s,
           resolve (root E)
             (join (join task_folder (name info)) (py "name.txt"))
             = Found (File f) ∧
           text f = Some s ∧ description info = strip s).
  assert (∃ infos,
            get_task_info_list E task_folder st = (Ret infos, st) ∧
            Forall ok infos) as (infos & Hrun & Hok).
  { unfold get_task_info_list.
    destruct (isdir E task_folder) eqn:Hdir; simpl; [|by exists []].
    apply isdir_resolve in Hdir as [es Hdir].
    unfold bind, lift. destruct (listdir E task_folder) as [names|e] eqn:Hls.
    - destruct (for_each_returns (task_info_step E task_folder)
                  (λ infos st', st' = st ∧ Forall ok infos) names)
        with (acc := @nil TaskModuleInfo) (st := st)
        as (infos & st' & Hrun & -> & Hok); [|done|by exists infos].
      intros acc x st' _ [-> Hacc].
      destruct (task_info_step_cases E task_folder acc x st)
        as [->|(f & s & Hres & Htext & Hne & ->)]; [by eauto|].
      eexists _, _. split; [done|]. split; [done|].
      apply Forall_app. split; [done|]. apply Forall_singleton.
      split; [done|]. by exists f, s.
    - unfold listdir in Hls. by rewrite Hdir in Hls. }
  exists infos. split; [done|]. rewrite Forall_forall in Hok.
  split; [exact Hok|].
  intros subdir_name f s Hres Htext Hblank info Hin Hname.
  destruct (Hok _ Hin) as (Hne & f' & s' & Hres' & Htext' & Hdesc).
  rewrite Hname, Hres in Hres'. injection Hres' as <-.
  rewrite Htext in Htext'. injection Htext' as <-.
  apply strip_nil in Hblank. congruence.
Qed.

Lemma scenario_descriptions :
  ∃ infos,
    get_task_info_list scenario tasks st0 = (Ret infos, st0) ∧
    (∀ info, info ∈ infos →
       description info ≠ [] ∧
       ∃ f s,
         resolve (root scenario)
           (join (join tasks (name info)) (py "name.txt"))
           = Found (File f) ∧
         text f = Some s ∧ description info = strip s) ∧
    (∀ subdir_name f s,
       resolve (root scenario)
         (join (join tasks subdir_name) (py "name.txt"))
         = Found (File f) →
       text f = Some s → forallb py_isspace s = true →
       ∀ info, info ∈ infos → name info ≠ subdir_name).
Proof. exact (descriptions_stripped_nonempty scenario tasks st0). Defined.

(** The end-to-end scenario of the metadata-first flow: one descriptor, for
    [task_A], labelled by its sidecar file. *)
Example get_task_info_list_scenario :
  get_task_info_list scenario tasks st0 =
    (Ret [descriptor "task_A" "Alpha Task"], st0).
Proof. vm_compute. reflexivity. Qed.


(** ** The import machinery *)

Lemma spec_from_file_location_Some n location spec :
  spec_from_file_location n location = Some spec →
  spec = {| spec_name := n; spec_loader := spec_loader spec;
            spec_origin := location |}.
Proof.
  unfold spec_from_file_location. destruct (last location); [|done].
  destruct (find _ _); [|done]. by intros [= <-].
Qed.

(** A location ending in [main.py] is served by the source loader. *)
Lemma spec_from_file_location_main n p :
  spec_from_file_location n (join p (py "main.py")) =
    Some {| spec_name := n; spec_loader := SourceFileLoader;
            spec_origin := join p (py "main.py") |}.
Proof.
  unfold spec_from_file_location, join. rewrite last_snoc.
  by vm_compute (find _ _).
Qed.

(** Getting the code of a file fails with an [Exception] only. *)
Lemma read_code_raises E p unusable e :
  is_Exception unusable = true →
  read_code E p unusable = Raise e → is_Exception e = true.
Proof.
  unfold read_code. intros Hu.
  destruct (resolve (root E) p) as [[f|?]| |]; [destruct (code f)|..];
    by intros [= <-].
Qed.

Lemma code_of_raises E cache l p e :
  code_of E cache l p = Raise e → is_Exception e = true.
Proof.
  destruct l; simpl.
  - destruct (read_code E p ImportError); by intros [= <-].
  - destruct (cached_bytecode E cache p); [done|]. by apply read_code_raises.
  - by apply read_code_raises.
Qed.

(** Code is read from files only. *)
Lemma read_code_Ret E p unusable prog :
  read_code E p unusable = Ret prog →
  ∃ f, resolve (root E) p = Found (File f) ∧ code f = Some prog.
Proof.
  unfold read_code. destruct (resolve (root E) p) as [[f|?]| |]; try done.
  destruct (code f) as [prog'|] eqn:Hcode; [|done]. intros [= <-]. eauto.
Qed.

(** Without a bytecode file the source loader compiles the source. *)
Lemma code_of_no_bytecode E cache p :
  cache !! p = None →
  code_of E cache SourceFileLoader p = read_code E p SyntaxError.
Proof.
  intros Hp. unfold code_of, cached_bytecode. rewrite Hp.
  by destruct (exists_ E p).
Qed.

(** Storing bytecode touches nothing but the bytecode files. *)
Lemma cache_bytecode_fields E l p prog st :
  next_id (cache_bytecode E l p prog st) = next_id st ∧
  sys_modules (cache_bytecode E l p prog st) = sys_modules st ∧
  exec_log (cache_bytecode E l p prog st) = exec_log st.
Proof.
  unfold cache_bytecode.
  destruct l, (cached_bytecode E (pycache st) p), (bytecode_writable E p);
    done.
Qed.

(** The bytecode the source loader stores is the code it has just obtained:
    storing it changes the code of no file. *)
Lemma code_of_cache_bytecode E l p prog st l' q :
  code_of E (pycache st) l p = Ret prog →
  code_of E (pycache (cache_bytecode E l p prog st)) l' q
    = code_of E (pycache st) l' q.
Proof.
  intros Hcode. unfold cache_bytecode.
  destruct l; try done.
  destruct (cached_bytecode E (pycache st) p) eqn:Hcached; [done|].
  destruct (bytecode_writable E p); [|done]. simpl.
  destruct l'; try done. simpl.
  destruct (decide (q = p)) as [->|Hne].
  - simpl in Hcode. rewrite Hcached in Hcode. rewrite Hcached, Hcode.
    unfold cached_bytecode. rewrite lookup_insert_eq.
    apply read_code_Ret in Hcode as (f & Hres & _).
    unfold exists_. rewrite Hres. by rewrite decide_True.
  - unfold cached_bytecode. by rewrite lookup_insert_ne.
Qed.

Lemma code_of_after_exec E l p prog m st l' q :
  code_of E (pycache st) l p = Ret prog →
  code_of E (pycache (after_exec E l p prog m st)) l' q
    = code_of E (pycache st) l' q.
Proof. apply code_of_cache_bytecode. Qed.

Lemma after_exec_fields E l p prog m st :
  next_id (after_exec E l p prog m st) = next_id st ∧
  exec_log (after_exec E l p prog m st) = exec_log st ++ [(p, mod_id m)] ∧
  sys_modules (after_exec E l p prog m st) =
    if registers prog
    then <[mod_name m := Loaded (mod_id m)]> (sys_modules st ∪ imported prog)
    else sys_modules st ∪ imported prog.
Proof.
  destruct (cache_bytecode_fields E l p prog st) as (Hid & Hsys & Hlog).
  unfold after_exec, after_run. simpl. by rewrite Hid, Hsys, Hlog.
Qed.

(** What [exec_module] amounts to. *)
Lemma exec_module_unfold E spec m st :
  exec_module E spec m st =
    match code_of E (pycache st) (spec_loader spec) (spec_origin spec) with
    | Ret prog =>
        (match finish prog with
         | None => Ret (executed prog m)
         | Some e => Raise e
         end,
         after_exec E (spec_loader spec) (spec_origin spec) prog m st)
    | Raise e => (Raise e, st)
    end.
Proof.
  unfold exec_module, bind, get_code, run, after_exec.
  destruct (code_of _ _ _ _) as [prog|e]; [|done].
  by destruct (finish prog).
Qed.

(** What [importlib.reload] amounts to. *)
Lemma reload_unfold E m st :
  reload E m st =
    if bool_decide (sys_modules st !! mod_name m = Some (Loaded (mod_id m)))
    then
      match find_spec E (mod_name m) with
      | None => (Raise ModuleNotFoundError, st)
      | Some fd =>
          let m' := with_origin (found_origin fd) m in
          match found_code E st fd with
          | Raise e => (Raise e, st)
          | Ret None => (Ret m', st)
          | Ret (Some body) =>
              (match finish body with
               | None => Ret (executed body m')
               | Some e => Raise e
               end,
               match fd with
               | SourceFile origin =>
                   after_exec E SourceFileLoader origin body m' st
               | LoaderCode origin _ => after_run body origin m' st
               | NoCode _ => st
               end)
          end
      end
    else (Raise ImportError, st).
Proof.
  unfold reload. destruct (bool_decide _); [|done].
  destruct (find_spec E (mod_name m)) as [[o|o|o body]|];
    unfold exec_found, found_code; cbv zeta; try done.
  - unfold bind, get_code, run, after_exec.
    destruct (code_of _ _ _ _) as [prog|e]; [|done]. by destruct (finish prog).
  - unfold run. by destruct (finish body).
Qed.

(** What a load through [load_task_module] amounts to. *)
Lemma load_task_module_unfold E info st :
  load_task_module E info st =
    match spec_from_file_location (module_id info) (main_py_path info) with
    | None => (Ret None, st)
    | Some spec =>
        let m := new_module spec st in
        match code_of E (pycache st) (spec_loader spec) (spec_origin spec)
        with
        | Ret prog =>
            (match finish prog with
             | None =>
                 Ret (check_required REQUIRED_FUNCTIONS (executed prog m))
             | Some e => if is_Exception e then Ret None else Raise e
             end,
             after_exec E (spec_loader spec) (spec_origin spec) prog m
               (allocated st))
        | Raise _ => (Ret None, allocated st)
        end
    end.
Proof.
  unfold load_task_module, try_except.
  destruct (spec_from_file_location _ _) as [spec|]; [|done].
  unfold bind, module_from_spec. rewrite exec_module_unfold.
  cbn [pycache allocated].
  destruct (code_of _ _ _ _) as [prog|e] eqn:Hcode.
  - destruct (finish prog) as [e|]; [|done]. by destruct (is_Exception e).
  - by rewrite (code_of_raises _ _ _ _ _ Hcode).
Qed.

(** What a round of [get_task_module] amounts to: on a candidate, the code
    of [main.py] is run in a new module object, which is then handed to
    [importlib.reload]. *)
Lemma task_module_step_unfold E task_path acc entry st :
  let main_file := entry_point task_path entry in
  let m := new_module {| spec_name := entry; spec_loader := SourceFileLoader;
                         spec_origin := main_file |} st in
  task_module_step E task_path acc entry st =
    if is_candidate E task_path entry then
      match entry_code E st task_path entry with
      | Raise _ => (Ret acc, allocated st)
      | Ret prog =>
          let st1 :=
            after_exec E SourceFileLoader main_file prog m (allocated st) in
          match finish prog with
          | Some e => (if is_Exception e then Ret acc else Raise e, st1)
          | None =>
              match reload E (executed prog m) st1 with
              | (Raise e, st2) =>
                  (if is_Exception e then Ret acc else Raise e, st2)
              | (Ret m2, st2) =>
                  if forallb (hasattr m2) required_funcs then
                    match call_attr m2 (py "get_name") with
                    | Ret (VStr s) =>
                        (Ret (acc.1 ++ [s], acc.2 ++ [m2]), st2)
                    | Ret _ => (Ret acc, st2)
                    | Raise e =>
                        (if is_Exception e then Ret acc else Raise e, st2)
                    end
                  else (Ret acc, st2)
              end
          end
      end
    else (Ret acc, st).
Proof.
  intros main_file m. unfold task_module_step, is_candidate, entry_code.
  fold (entry_point task_path entry). fold main_file.
  unfold main_file at 2, entry_point. rewrite spec_from_file_location_main.
  fold (entry_point task_path entry). fold main_file.
  destruct (isdir E _); [|done]. destruct (isfile E main_file); [|done].
  cbn [negb andb].
  unfold try_except, bind, module_from_spec. rewrite exec_module_unfold.
  cbn [pycache allocated spec_loader spec_origin]. fold m.
  destruct (code_of _ _ _ _) as [prog|e] eqn:Hcode;
    [|by rewrite (code_of_raises _ _ _ _ _ Hcode)].
  destruct (finish prog) as [e|]; [by destruct (is_Exception e)|].
  destruct (reload E _ _) as [[m2|e] st2]; [|by destruct (is_Exception e)].
  destruct (forallb _ required_funcs); cbn [negb]; [|done].
  unfold task_name_of, try_except, bind, lift, ret.
  destruct (call_attr _ _) as [[| | |]|e]; try done.
  destruct (is_Exception e) eqn:He; by rewrite ?He.
Qed.

(** ** Interpreter states *)

(** Importing leaves no module object of the loaders in [sys.modules]. *)
Lemma lookup_union_imported (table : gmap pystr object) p n i :
  (table ∪ imported p) !! n = Some (Loaded i) → table !! n = Some (Loaded i).
Proof.
  intros [H|[_ H]]%lookup_union_Some_raw; [done|].
  apply elem_of_list_to_map_2 in H.
  by apply list_elem_of_fmap in H as (n' & [=] & _).
Qed.

(** After a run, a module object of the loaders stored in [sys.modules] is
    the one the code ran in, stored by that code under the module's name,
    or was there before. *)
Lemma after_run_Loaded p origin m st n i :
  sys_modules (after_run p origin m st) !! n = Some (Loaded i) →
  (registers p = true ∧ n = mod_name m ∧ i = mod_id m) ∨
  sys_modules st !! n = Some (Loaded i).
Proof.
  simpl. destruct (registers p).
  - destruct (decide (n = mod_name m)) as [->|Hne].
    + rewrite lookup_insert_eq. intros [= <-]. by left.
    + rewrite lookup_insert_ne by done. right.
      by eapply lookup_union_imported.
  - right. by eapply lookup_union_imported.
Qed.

Lemma well_formed_allocated st : well_formed st → well_formed (allocated st).
Proof.
  intros [Hm Hl]. split; simpl.
  - intros n i H. apply Hm in H. lia.
  - intros p i H. apply Hl in H. lia.
Qed.

Lemma well_formed_after_run p origin m st :
  mod_id m < next_id st → well_formed st →
  well_formed (after_run p origin m st).
Proof.
  intros Hid [Hm Hl]. split.
  - intros n i [(_ & _ & ->)|H]%after_run_Loaded; [done|by apply Hm in H].
  - simpl. intros q i [H|H]%elem_of_app; [by apply Hl in H|].
    apply list_elem_of_singleton in H. by injection H as -> ->.
Qed.

Lemma well_formed_cache_bytecode E l p prog st :
  well_formed st → well_formed (cache_bytecode E l p prog st).
Proof.
  destruct (cache_bytecode_fields E l p prog st) as (Hid & Hsys & Hlog).
  unfold well_formed. by rewrite Hid, Hsys, Hlog.
Qed.

Lemma well_formed_after_exec E l p prog m st :
  mod_id m < next_id st → well_formed st →
  well_formed (after_exec E l p prog m st).
Proof.
  intros Hid Hwf. apply well_formed_after_run.
  - by rewrite (proj1 (cache_bytecode_fields E l p prog st)).
  - by apply well_formed_cache_bytecode.
Qed.

Lemma well_formed_st0 : well_formed st0.
Proof. split; [intros n i|intros p i]; [done|]. by intros ?%elem_of_nil. Qed.

(** ** The code the loaders obtain *)

Lemma same_code_refl E st : same_code E st st.
Proof. by intros l p. Qed.

Lemma same_code_trans E st1 st2 st3 :
  same_code E st1 st2 → same_code E st2 st3 → same_code E st1 st3.
Proof. intros H12 H23 l p. by rewrite H23, H12. Qed.

Lemma same_code_pycache E st st' :
  pycache st' = pycache st → same_code E st st'.
Proof. intros Hc l p. by rewrite Hc. Qed.

Lemma same_code_after_exec E l p prog m st :
  code_of E (pycache st) l p = Ret prog →
  same_code E st (after_exec E l p prog m st).
Proof. intros Hcode l' q. by apply code_of_after_exec. Qed.

Lemma found_code_same E st st' fd :
  same_code E st st' → found_code E st' fd = found_code E st fd.
Proof.
  intros Hsame. destruct fd; unfold found_code; [done| |done].
  by rewrite Hsame.
Qed.

Lemma entry_code_same E st st' task_path entry :
  same_code E st st' →
  entry_code E st' task_path entry = entry_code E st task_path entry.
Proof. intros Hsame. apply Hsame. Qed.

(** With no bytecode files the code of an entry point is what its source
    compiles to. *)
Lemma entry_code_st0 E task_path entry :
  entry_code E st0 task_path entry
    = read_code E (entry_point task_path entry) SyntaxError.
Proof. by apply code_of_no_bytecode. Qed.

(** ** What [importlib.reload] does *)

Lemma after_exec_Loaded E l p prog m st n i :
  sys_modules (after_exec E l p prog m st) !! n = Some (Loaded i) →
  (registers prog = true ∧ n = mod_name m ∧ i = mod_id m) ∨
  sys_modules st !! n = Some (Loaded i).
Proof.
  intros H. apply after_run_Loaded in H.
  by rewrite (proj1 (proj2 (cache_bytecode_fields E l p prog st))) in H.
Qed.

(** A reload that returns: the module was stored in [sys.modules] under
    its name, the import system found a spec under that name, the code
    that came with it, if any, ran to completion, and the module returned
    is the same object with the origin of that spec and a namespace
    updated by that code. *)
Lemma reload_Ret E m st m' st' :
  reload E m st = (Ret m', st') →
  sys_modules st !! mod_name m = Some (Loaded (mod_id m)) ∧
  ∃ fd body,
    find_spec E (mod_name m) = Some fd ∧
    found_code E st fd = Ret body ∧
    (∀ b, body = Some b → finish b = None) ∧
    m' = {| mod_id := mod_id m; mod_name := mod_name m;
            mod_origin := found_origin fd;
            mod_dict := body_binds body ∪ mod_dict m |}.
Proof.
  rewrite reload_unfold. cbv zeta.
  destruct (bool_decide _) eqn:Hreg; [|done].
  apply bool_decide_eq_true in Hreg.
  intros Hrel. split; [done|]. revert Hrel.
  destruct (find_spec E (mod_name m)) as [fd|]; [|done].
  destruct (found_code E st fd) as [[body|]|e] eqn:Hbody; [| |done].
  - destruct (finish body) eqn:Hfin; [done|]. intros [= <- _].
    exists fd, (Some body). split; [done|]. split; [done|].
    split; [by intros b [= <-]|done].
  - intros [= <- _]. exists fd, None. split; [done|]. split; [done|].
    split; [done|]. unfold with_origin, body_binds. f_equal.
    by rewrite (left_id_L ∅ (∪)).
Qed.

(** Whatever its outcome, a reload creates no module object, does not
    change the code of any file, puts no further module object of the
    loaders into [sys.modules], and executes at most the code that comes
    with the spec found under the module's name, in that module. *)
Lemma reload_state E m st r st' :
  reload E m st = (r, st') →
  next_id st' = next_id st ∧
  same_code E st st' ∧
  (∀ n i, sys_modules st' !! n = Some (Loaded i) →
          sys_modules st !! n = Some (Loaded i)) ∧
  (exec_log st' = exec_log st ∨
   ∃ fd origin,
     find_spec E (mod_name m) = Some fd ∧ found_origin fd = Some origin ∧
     exec_log st' = exec_log st ++ [(origin, mod_id m)]).
Proof.
  assert (next_id st = next_id st ∧ same_code E st st ∧
          (∀ n i, sys_modules st !! n = Some (Loaded i) →
                  sys_modules st !! n = Some (Loaded i)) ∧
          (exec_log st = exec_log st ∨
           ∃ fd origin,
             find_spec E (mod_name m) = Some fd ∧
             found_origin fd = Some origin ∧
             exec_log st = exec_log st ++ [(origin, mod_id m)])) as Hsame.
  { split; [done|]. split; [apply same_code_refl|]. split; [done|by left]. }
  rewrite reload_unfold. cbv zeta.
  destruct (bool_decide _) eqn:Hreg; [|by intros [= <- <-]].
  apply bool_decide_eq_true in Hreg.
  destruct (find_spec E (mod_name m)) as [fd|] eqn:Hfd;
    [|by intros [= <- <-]].
  destruct (found_code E st fd) as [[body|]|e] eqn:Hbody;
    [|by intros [= <- <-]..].
  intros [= _ <-]. clear Hsame.
  destruct fd as [o|o|o body']; [done| |]; unfold found_code in Hbody.
  - destruct (code_of E (pycache st) SourceFileLoader o) as [prog|]
      eqn:Hcode; [|done]. injection Hbody as ->.
    destruct (after_exec_fields E SourceFileLoader o body
                (with_origin (Some o) m) st) as (Hid & Hlog & _).
    split; [done|]. split; [by apply same_code_after_exec|]. split.
    + intros n i [(_ & -> & ->)|H]%after_exec_Loaded; done.
    + right. by exists (SourceFile o), o.
  - injection Hbody as ->. split; [done|].
    split; [by apply same_code_pycache|]. split.
    + intros n i [(_ & -> & ->)|H]%after_run_Loaded; done.
    + right. by exists (LoaderCode o body), o.
Qed.

(** ** Eager discovery-and-load, round by round *)

Lemma get_task_module_listed E task_path es st :
  resolve (root E) task_path = Found (Dir es) →
  get_task_module E task_path st =
    for_each (task_module_step E task_path) (es.*1) ([], []) st.
Proof.
  intros Hres. unfold get_task_module, bind, lift, listdir. by rewrite Hres.
Qed.

(** A round on an entry that is not a candidate does nothing. *)
Lemma task_module_step_skip E task_path acc entry st :
  is_candidate E task_path entry = false →
  task_module_step E task_path acc entry st = (Ret acc, st).
Proof. intros Hc. rewrite task_module_step_unfold. cbv zeta. by rewrite Hc. Qed.

(** Whatever its outcome, a round creates at most one module object, does
    not change the code of any file, leaves no module object of the
    loaders in [sys.modules] but the one it created, and executes code in
    that module only: the code of the entry point of a candidate, and what
    the import system finds under the name of the candidate. *)
Lemma task_module_step_state E task_path acc entry st r st' :
  task_module_step E task_path acc entry st = (r, st') →
  (st' = st ∨ next_id st' = S (next_id st)) ∧
  same_code E st st' ∧
  (∀ n i, sys_modules st' !! n = Some (Loaded i) →
          sys_modules st !! n = Some (Loaded i) ∨ i = next_id st) ∧
  ∃ new,
    exec_log st' = exec_log st ++ new ∧
    ∀ p i, (p, i) ∈ new →
           i = next_id st ∧ is_candidate E task_path entry = true ∧
           (p = entry_point task_path entry ∨
            ∃ fd, find_spec E entry = Some fd ∧ found_origin fd = Some p).
Proof.
  rewrite task_module_step_unfold. cbv zeta.
  destruct (is_candidate E task_path entry) eqn:Hcand.
  2:{ intros [= <- <-]. split; [by left|]. split; [apply same_code_refl|].
      split; [by left|]. exists []. rewrite (right_id_L [] (++)).
      split; [done|]. by intros ?? ?%elem_of_nil. }
  set (ok := λ st' : interp,
         (st' = st ∨ next_id st' = S (next_id st)) ∧
         same_code E st st' ∧
         (∀ n i, sys_modules st' !! n = Some (Loaded i) →
                 sys_modules st !! n = Some (Loaded i) ∨ i = next_id st) ∧
         ∃ new,
           exec_log st' = exec_log st ++ new ∧
           ∀ p i, (p, i) ∈ new →
                  i = next_id st ∧ true = true ∧
                  (p = entry_point task_path entry ∨
                   ∃ fd, find_spec E entry = Some fd ∧
                         found_origin fd = Some p)).
  assert (ok (allocated st)) as Halloc.
  { split; [by right|]. split; [by apply same_code_pycache|].
    split; [by left|]. exists []. simpl. rewrite (right_id_L [] (++)).
    split; [done|]. by intros ?? ?%elem_of_nil. }
  destruct (entry_code E st task_path entry) as [prog|e] eqn:Hcode;
    [|by intros [= <- <-]].
  set (m := new_module _ st).
  set (st1 := after_exec E SourceFileLoader _ prog m (allocated st)).
  pose proof (after_exec_fields E SourceFileLoader
                (entry_point task_path entry) prog m (allocated st))
    as Hfields.
  assert (next_id st1 = S (next_id st)) as Hid1 by exact (proj1 Hfields).
  assert (exec_log st1
          = exec_log st ++ [(entry_point task_path entry, next_id st)])
    as Hlog1 by exact (proj1 (proj2 Hfields)).
  clear Hfields.
  assert (same_code E st st1) as Hsame1.
  { apply (same_code_trans _ _ (allocated st));
      [by apply same_code_pycache|by apply same_code_after_exec]. }
  assert (∀ n i, sys_modules st1 !! n = Some (Loaded i) →
                 sys_modules st !! n = Some (Loaded i) ∨ i = next_id st)
    as Hsys1.
  { intros n i [(_ & _ & ->)|H]%after_exec_Loaded; [by right|by left]. }
  assert (ok st1) as H1.
  { split; [by right|]. split; [done|]. split; [done|].
    exists [(entry_point task_path entry, next_id st)].
    split; [done|]. intros p i [= -> ->]%list_elem_of_singleton. auto. }
  destruct (finish prog) as [e|]; [by intros [= <- <-]|].
  destruct (reload E (executed prog m) st1) as [r2 st2] eqn:Hrel.
  assert (ok st2) as H2.
  { apply reload_state in Hrel as (Hid2 & Hsame2 & Hsys2 & Hlog2).
    split; [right; by rewrite Hid2, Hid1|].
    split; [by apply (same_code_trans _ _ st1)|].
    split; [intros n i H; by apply Hsys1, Hsys2|].
    destruct Hlog2 as [Hlog2|(fd & origin & Hfd & Ho & Hlog2)].
    - exists [(entry_point task_path entry, next_id st)].
      split; [by rewrite Hlog2, Hlog1|].
      intros p i [= -> ->]%list_elem_of_singleton. auto.
    - exists [(entry_point task_path entry, next_id st);
              (origin, next_id st)].
      split; [rewrite Hlog2, Hlog1; by rewrite <- (assoc_L (++))|].
      intros p i [[= -> ->]|[= -> ->]%list_elem_of_singleton]%elem_of_cons;
        [auto|].
      split; [done|]. split; [done|]. right. by exists fd. }
  repeat case_match; by intros [= <- <-].
Qed.

(** A round keeps the interpreter state well formed. *)
Lemma task_module_step_well_formed E task_path acc entry st r st' :
  well_formed st →
  task_module_step E task_path acc entry st = (r, st') → well_formed st'.
Proof.
  intros [Hm Hl] (Hid & _ & Hsys & new & Hlog & Hnew)%task_module_step_state.
  destruct Hid as [->|Hid]; [done|]. split.
  - intros n i [H| ->]%Hsys; [apply Hm in H|]; lia.
  - rewrite Hlog. intros p i [H|H]%elem_of_app; [apply Hl in H; lia|].
    apply Hnew in H as [-> _]. lia.
Qed.


(** ** The unconditional reload *)

(** A round on a candidate whose code does not register the module: the
    code is executed once in a new module object, then the reload fails
    and the candidate is skipped. Only an exception outside [Exception]
    raised by the code itself gets out. *)
Lemma task_module_step_unregistered E task_path acc entry st prog :
  well_formed st →
  is_candidate E task_path entry = true →
  entry_code E st task_path entry = Ret prog →
  registers prog = false →
  task_module_step E task_path acc entry st =
    (match finish prog with
     | Some e => if is_Exception e then Ret acc else Raise e
     | None => Ret acc
     end,
     after_exec E SourceFileLoader (entry_point task_path entry) prog
       (new_module {| spec_name := entry; spec_loader := SourceFileLoader;
                      spec_origin := entry_point task_path entry |} st)
       (allocated st)).
Proof.
  intros Hwf Hcand Hcode Hreg. rewrite task_module_step_unfold. cbv zeta.
  rewrite Hcand, Hcode. destruct (finish prog) as [e|]; [done|].
  rewrite reload_unfold. rewrite bool_decide_eq_false_2; [done|].
  intros [(H & _)|H]%after_exec_Loaded; [congruence|].
  destruct Hwf as [Hm _]. apply Hm in H. simpl in H. lia.
Qed.

(** A round below a directory without self-registering entry points, by
    whether the entry is a candidate and whether its entry point yields
    code. *)
Lemma task_module_step_candidate E task_path acc entry st :
  no_self_registration E st task_path →
  well_formed st →
  task_module_step E task_path acc entry st =
    if is_candidate E task_path entry then
      match entry_code E st task_path entry with
      | Ret prog =>
          (match finish prog with
           | Some e => if is_Exception e then Ret acc else Raise e
           | None => Ret acc
           end,
           after_exec E SourceFileLoader (entry_point task_path entry) prog
             (new_module
                {| spec_name := entry; spec_loader := SourceFileLoader;
                   spec_origin := entry_point task_path entry |} st)
             (allocated st))
      | Raise _ => (Ret acc, allocated st)
      end
    else (Ret acc, st).
Proof.
  intros Hreg Hwf.
  destruct (is_candidate E task_path entry) eqn:Hcand;
    [|by apply task_module_step_skip].
  destruct (entry_code E st task_path entry) as [prog|e] eqn:Hcode.
  - apply task_module_step_unregistered; eauto.
  - rewrite task_module_step_unfold. cbv zeta. by rewrite Hcand, Hcode.
Qed.

Lemma no_self_registration_same E st st' task_path :
  same_code E st st' →
  no_self_registration E st task_path → no_self_registration E st' task_path.
Proof.
  intros Hsame Hreg entry prog. rewrite (entry_code_same _ _ _ _ _ Hsame).
  apply Hreg.
Qed.

Lemma has_code_same E st st' task_path entry :
  same_code E st st' →
  has_code E st' task_path entry = has_code E st task_path entry.
Proof.
  intros Hsame. unfold has_code. by rewrite (entry_code_same _ _ _ _ _ Hsame).
Qed.

(** The loop of [get_task_module] below such a directory, when the code of
    no entry point raises an exception outside [Exception]: the code
    executed is that of the entry points of the candidates that yield
    code, in the order of the listing, each once and each in a module
    object of its own that did not exist before; no module object created
    on the way is left in [sys.modules]. *)
Lemma for_each_candidate_executions E task_path st l :
  no_self_registration E st task_path →
  only_Exceptions E st task_path →
  ∀ acc st1,
    same_code E st st1 →
    well_formed st1 →
    ∃ st' new,
      for_each (task_module_step E task_path) l acc st1 = (Ret acc, st') ∧
      well_formed st' ∧
      next_id st1 ≤ next_id st' ∧
      (∀ n i, sys_modules st' !! n = Some (Loaded i) →
              sys_modules st1 !! n = Some (Loaded i)) ∧
      exec_log st' = exec_log st1 ++ new ∧
      new.*1 = entry_point task_path
                 <$> filter (λ e, has_code E st task_path e = true) l ∧
      NoDup (new.*2) ∧
      (∀ i, i ∈ new.*2 → next_id st1 ≤ i < next_id st').
Proof.
  intros Hreg Hexc. induction l as [|entry l IH]; intros acc st1 Hsame Hwf.
  - exists st1, []. simpl. rewrite (right_id_L [] (++)).
    split; [done|]. split; [done|]. split; [done|]. split; [done|].
    split; [done|]. split; [done|]. split; [constructor|].
    by intros i ?%elem_of_nil.
  - simpl. unfold bind.
    pose proof (no_self_registration_same _ _ _ _ Hsame Hreg) as Hreg1.
    rewrite (task_module_step_candidate E task_path acc entry st1 Hreg1 Hwf).
    rewrite filter_cons.
    assert (has_code E st task_path entry
            = is_candidate E task_path entry &&
              match entry_code E st1 task_path entry with
              | Ret _ => true
              | Raise _ => false
              end) as Hhas.
    { unfold has_code. by rewrite (entry_code_same _ _ _ _ _ Hsame). }
    destruct (is_candidate E task_path entry) eqn:Hc; cbn [andb] in Hhas.
    2:{ rewrite decide_False by congruence. by apply IH. }
    destruct (entry_code E st1 task_path entry) as [prog|e] eqn:Hcode.
    + assert (match finish prog with
              | Some e => if is_Exception e then Ret acc else Raise e
              | None => Ret acc
              end = Ret acc) as ->.
      { destruct (finish prog) as [e|] eqn:Hfin; [|done].
        rewrite (entry_code_same _ _ _ _ _ Hsame) in Hcode.
        by rewrite (Hexc _ _ _ Hcode Hfin). }
      set (m := new_module _ st1).
      set (st2 := after_exec E SourceFileLoader _ prog m (allocated st1)).
      pose proof (after_exec_fields E SourceFileLoader
                    (entry_point task_path entry) prog m (allocated st1))
        as Hfields.
      assert (next_id st2 = S (next_id st1)) as Hid2 by exact (proj1 Hfields).
      assert (exec_log st2
              = exec_log st1 ++ [(entry_point task_path entry, next_id st1)])
        as Hlog2 by exact (proj1 (proj2 Hfields)).
      clear Hfields.
      destruct (IH acc st2) as (st' & new & Hrun & Hwf' & Hle & Hsys & Hlog
                                & Hfiles & Hnodup & Hids).
      { apply (same_code_trans _ _ st1); [done|].
        apply (same_code_trans _ _ (allocated st1));
          [by apply same_code_pycache|by apply same_code_after_exec]. }
      { apply well_formed_after_exec; [simpl; lia|].
        by apply well_formed_allocated. }
      exists st', ((entry_point task_path entry, next_id st1) :: new).
      split; [done|]. split; [done|]. split; [lia|]. split.
      { intros n i [(Hr & _)|H]%Hsys%after_exec_Loaded; [|done].
        rewrite (entry_code_same _ _ _ _ _ Hsame) in Hcode.
        rewrite (Hreg _ _ Hcode) in Hr. done. }
      split; [rewrite Hlog, Hlog2; by rewrite <- (assoc_L (++))|].
      rewrite decide_True by done. rewrite !fmap_cons, Hfiles.
      split; [done|]. simpl. split.
      * constructor; [|done]. intros Hin. apply Hids in Hin. lia.
      * intros i [->|Hin]%elem_of_cons; [lia|]. apply Hids in Hin. lia.
    + rewrite decide_False by congruence.
      destruct (IH acc (allocated st1))
        as (st' & new & Hrun & Hwf' & Hle & Hsys & Hlog & Hfiles & Hnodup
            & Hids).
      { apply (same_code_trans _ _ st1); [done|by apply same_code_pycache]. }
      { by apply well_formed_allocated. }
      exists st', new. simpl in *.
      split; [done|]. split; [done|]. split; [lia|]. split; [done|].
      split; [done|]. split; [done|]. split; [done|].
      intros i Hin. apply Hids in Hin. lia.
Qed.

(** Below such a directory [get_task_module] returns two empty lists, or
    lets through an exception that is not an [Exception]. *)
Lemma empty_or_raises_without_registration E task_path st :
  well_formed st →
  isdir E task_path = true →
  no_self_registration E st task_path →
  (get_task_module E task_path st).1 = Ret ([], []) ∨
  ∃ e, (get_task_module E task_path st).1 = Raise e ∧
       is_Exception e = false.
Proof.
  intros Hwf [es Hdir]%isdir_resolve Hreg.
  rewrite (get_task_module_listed _ _ es) by done.
  destruct (for_each (task_module_step E task_path) (es.*1) ([], []) st)
    as [r st'] eqn:Hrun.
  apply (for_each_outcome (task_module_step E task_path)
           (λ acc st1, acc = ([], []) ∧ well_formed st1 ∧ same_code E st st1)
           (λ e _, is_Exception e = false)) in Hrun;
    [| |split; [done|split; [done|apply same_code_refl]]].
  - destruct r as [acc|e]; [left; by destruct Hrun as [-> _]|right; eauto].
  - intros acc entry st1 r1 st1' _ (-> & Hwf1 & Hsame1) Hstep.
    pose proof (task_module_step_well_formed _ _ _ _ _ _ _ Hwf1 Hstep).
    pose proof (task_module_step_state _ _ _ _ _ _ _ Hstep)
      as (_ & Hsame & _).
    pose proof (no_self_registration_same _ _ _ _ Hsame1 Hreg) as Hreg1.
    rewrite (task_module_step_candidate E task_path _ entry st1 Hreg1 Hwf1)
      in Hstep.
    assert (same_code E st st1') by by apply (same_code_trans _ _ st1).
    destruct (is_candidate E task_path entry);
      [|by injection Hstep as <- <-].
    destruct (entry_code E st1 task_path entry) as [prog|e];
      [|by injection Hstep as <- <-].
    injection Hstep as <- _.
    destruct (finish prog) as [e|]; [|done].
    by destruct (is_Exception e) eqn:He.
Qed.

(** C3 (amended). On an existing directory, when the code of no entry
    point stores its module in [sys.modules] or raises an exception
    outside [Exception], [get_task_module] returns two empty lists: every
    candidate is executed, fails to reload and is skipped. *)
Theorem unregistered_candidates_skipped E task_path st :
  well_formed st →
  isdir E task_path = true →
  no_self_registration E st task_path →
  only_Exceptions E st task_path →
  (get_task_module E task_path st).1 = Ret ([], []).
Proof.
  intros Hwf [es Hdir]%isdir_resolve Hreg Hexc.
  rewrite (get_task_module_listed _ _ es) by done.
  by destruct (for_each_candidate_executions E task_path st (es.*1) Hreg Hexc
                 ([], []) st (same_code_refl E st) Hwf)
    as (st' & new & -> & _).
Qed.

(** What the entry points below [tasks] in a sample tree are. *)
Lemma tasks_env_entry_point plugins finds entry f :
  resolve (root (tasks_env plugins finds)) (entry_point tasks entry)
    = Found (File f) →
  ∃ es, (entry, Dir es) ∈ plugins ∧
        dir_lookup (py "main.py") es = Some (File f).
Proof.
  unfold entry_point, join, tasks. simpl.
  change (dir_lookup (py "tasks") [(py "tasks", Dir plugins)])
    with (Some (Dir plugins)). simpl.
  destruct (dir_lookup entry plugins) as [[?|es]|] eqn:Hn; try done.
  apply dir_lookup_Some in Hn. exists es. split; [done|].
  by destruct (dir_lookup _ es) as [?|]; [injection H as ->|].
Qed.

(** The code of such an entry point before any bytecode is stored. *)
Lemma tasks_env_entry_code plugins finds entry prog :
  entry_code (tasks_env plugins finds) st0 tasks entry = Ret prog →
  ∃ es f, (entry, Dir es) ∈ plugins ∧
          dir_lookup (py "main.py") es = Some (File f) ∧
          code f = Some prog.
Proof.
  rewrite entry_code_st0.
  intros (f & (es & Hin & Hmain)%tasks_env_entry_point & Hcode)%read_code_Ret.
  by exists es, f.
Qed.

Lemma one_corrupt_all_skipped :
  (get_task_module one_corrupt tasks st0).1 = Ret ([], []).
Proof.
  apply (unregistered_candidates_skipped one_corrupt tasks st0).
  - apply well_formed_st0.
  - reflexivity.
  - intros entry prog (es & f & Hin & Hmain & Hcode)%tasks_env_entry_code.
    each_plugin Hin; vm_compute in Hmain; injection Hmain as <-;
      simpl in Hcode; by simplify_eq.
  - intros entry prog e (es & f & Hin & Hmain & Hcode)%tasks_env_entry_code.
    each_plugin Hin; vm_compute in Hmain; injection Hmain as <-;
      simpl in Hcode; simplify_eq; by intros [= <-].
Defined.

(** C3, as stated, fails: a candidate that does not register itself but
    exits the interpreter makes [get_task_module] raise [SystemExit] instead
    of returning two empty lists. *)
Lemma eager_flow_reraises_SystemExit :
  well_formed st0 ∧ isdir one_exits tasks = true ∧
  entry_code one_exits st0 tasks (py "task_A") = Ret exits ∧
  registers exits = false ∧
  (get_task_module one_exits tasks st0).1 = Raise SystemExit ∧
  (get_task_module one_exits tasks st0).1 ≠ Ret ([], []).
Proof.
  split; [apply well_formed_st0|]. by vm_compute.
Qed.

(** ** A parent path that is not a directory *)


(** C4. On a parent path that does not exist [get_task_info_list] returns
    the empty list, but [get_task_module] raises [FileNotFoundError] to its
    caller instead of returning two empty lists. *)
Theorem missing_parent_path :
  isdir scenario [py "missing"] = false ∧
  get_task_info_list scenario [py "missing"] st0 = (Ret [], st0) ∧
  get_task_module scenario [py "missing"] st0
    = (Raise FileNotFoundError, st0).
Proof. by vm_compute. Qed.

(** The same on a parent path that is a file. *)
Example get_task_module_on_file :
  get_task_module scenario (entry_point tasks (py "task_A")) st0
    = (Raise NotADirectoryError, st0).
Proof. reflexivity. Qed.

(** ** Valid plugins in the eager flow *)

(** C1. Two candidates, [task_A] valid and [task_B] with an entry point that
    does not compile: [get_task_module] returns no plugin at all, where one
    (N - 1) is due; the valid candidate is executed and then lost to the
    failing reload. *)
Theorem one_corrupt_loses_valid_plugin :
  get_task_module one_corrupt tasks st0 =
    (Ret ([], []),
     {| next_id := 2;
        sys_modules := ∅;
        pycache := {[entry_point tasks (py "task_A")
                       := (0%N, 0%N, valid_task "A")]};
        exec_log := [(entry_point tasks (py "task_A"), 0)] |}).
Proof. vm_compute. reflexivity. Qed.

(** C2. In the end-to-end layout [task_A] defines the four hooks and its
    [get_name] returns a string, yet the result of [get_task_module] holds
    no pair for it. *)
Theorem scenario_yields_no_pair :
  entry_code scenario st0 tasks (py "task_A") = Ret (valid_task "A") ∧
  forallb (λ h, callable_attr
                  (executed (valid_task "A")
                     (new_module {| spec_name := py "task_A";
                                    spec_loader := SourceFileLoader;
                                    spec_origin :=
                                      entry_point tasks (py "task_A") |}
                        st0)) h)
    required_funcs = true ∧
  call_attr (executed (valid_task "A")
               (new_module {| spec_name := py "task_A";
                              spec_loader := SourceFileLoader;
                              spec_origin := entry_point tasks (py "task_A") |}
                  st0))
    (py "get_name") = Ret (VStr (py "A")) ∧
  (get_task_module scenario tasks st0).1 = Ret ([], []).
Proof. by vm_compute. Qed.

(** ** Results of [load_task_module] *)

Lemma executed_new_module p spec st :
  executed p (new_module spec st) =
    {| mod_id := next_id st; mod_name := spec_name spec;
       mod_origin := Some (spec_origin spec); mod_dict := binds p |}.
Proof. unfold executed. simpl. by rewrite (right_id_L ∅ (∪)). Qed.

(** The result of a load, by the code obtained for the descriptor. *)
Lemma load_task_module_result E task_info st :
  (load_task_module E task_info st).1 =
    match loaded_code E st task_info with
    | Some (Ret prog) =>
        match finish prog with
        | None =>
            Ret (check_required REQUIRED_FUNCTIONS
                   {| mod_id := next_id st;
                      mod_name := module_id task_info;
                      mod_origin := Some (main_py_path task_info);
                      mod_dict := binds prog |})
        | Some e => if is_Exception e then Ret None else Raise e
        end
    | _ => Ret None
    end.
Proof.
  rewrite load_task_module_unfold. unfold loaded_code.
  destruct (spec_from_file_location _ _) as [spec|] eqn:Hspec; [|done].
  apply spec_from_file_location_Some in Hspec. cbv zeta. simpl.
  destruct (code_of _ _ _ _) as [prog|e]; [|done].
  destruct (finish prog); [done|]. simpl.
  rewrite executed_new_module. by rewrite Hspec.
Qed.

(** Without code for the descriptor nothing is run, and [sys.modules] is
    left alone. *)
Lemma load_task_module_no_code E task_info st :
  (∀ prog, loaded_code E st task_info ≠ Some (Ret prog)) →
  (load_task_module E task_info st).1 = Ret None ∧
  exec_log (load_task_module E task_info st).2 = exec_log st ∧
  sys_modules (load_task_module E task_info st).2 = sys_modules st.
Proof.
  intros Hno. rewrite load_task_module_unfold. unfold loaded_code in Hno.
  destruct (spec_from_file_location _ _) as [spec|]; [|done]. cbv zeta.
  simpl in Hno. destruct (code_of _ _ _ _) as [prog|e]; [|done].
  by destruct (Hno prog).
Qed.

(** With code for the descriptor, that code is run once, in the module
    object this call creates. *)
Lemma load_task_module_log E task_info st prog :
  loaded_code E st task_info = Some (Ret prog) →
  next_id (load_task_module E task_info st).2 = S (next_id st) ∧
  exec_log (load_task_module E task_info st).2
    = exec_log st ++ [(main_py_path task_info, next_id st)] ∧
  (∀ n i, sys_modules (load_task_module E task_info st).2 !! n
            = Some (Loaded i) →
          (registers prog = true ∧ n = module_id task_info ∧ i = next_id st) ∨
          sys_modules st !! n = Some (Loaded i)).
Proof.
  rewrite load_task_module_unfold. unfold loaded_code.
  destruct (spec_from_file_location _ _) as [spec|] eqn:Hspec; [|done].
  apply spec_from_file_location_Some in Hspec.
  assert (spec_name spec = module_id task_info ∧
          spec_origin spec = main_py_path task_info) as [Hname Horigin].
  { by rewrite Hspec. }
  clear Hspec. cbv zeta. simpl.
  destruct (code_of _ _ _ _) as [prog'|e]; [|done]. intros [= ->].
  cbn [snd].
  pose proof (after_exec_fields E (spec_loader spec) (spec_origin spec) prog
                (new_module spec st) (allocated st)) as (Hid & Hlog & _).
  rewrite Hid, Hlog, Horigin. split; [done|]. split; [done|].
  intros n i [(? & -> & ->)|H]%after_exec_Loaded; [left|by right].
  simpl. by rewrite Hname.
Qed.

(** What [load_task_module] raises comes from the code of the entry point
    and is not an [Exception]. *)
Lemma load_task_module_raises E task_info st e :
  (load_task_module E task_info st).1 = Raise e →
  is_Exception e = false ∧
  ∃ prog, loaded_code E st task_info = Some (Ret prog) ∧
          finish prog = Some e.
Proof.
  rewrite load_task_module_result.
  destruct (loaded_code E st task_info) as [[prog|]|]; [|done..].
  destruct (finish prog) as [e0|] eqn:Hfin; [|done].
  destruct (is_Exception e0) eqn:He0; [done|]. intros [= <-]. eauto.
Qed.

(** ** Exceptions in [load_task_module] *)

(** C9 (amended). [load_task_module] turns every [Exception] raised while
    the code of the entry point is obtained and executed into the result
    [None]; what it lets through is exactly an exception outside
    [Exception] that this code raises. *)
Theorem only_non_Exceptions_escape E task_info st :
  (∀ e, (load_task_module E task_info st).1 = Raise e →
        is_Exception e = false ∧
        ∃ prog, loaded_code E st task_info = Some (Ret prog) ∧
                finish prog = Some e) ∧
  (∀ prog e, loaded_code E st task_info = Some (Ret prog) →
             finish prog = Some e → is_Exception e = true →
             (load_task_module E task_info st).1 = Ret None) ∧
  (∀ prog e, loaded_code E st task_info = Some (Ret prog) →
             finish prog = Some e → is_Exception e = false →
             (load_task_module E task_info st).1 = Raise e) ∧
  ((∀ prog, loaded_code E st task_info ≠ Some (Ret prog)) →
   (load_task_module E task_info st).1 = Ret None).
Proof.
  split; [apply load_task_module_raises|]. split; [|split].
  - intros prog e Hcode Hfin He.
    by rewrite load_task_module_result, Hcode, Hfin, He.
  - intros prog e Hcode Hfin He.
    by rewrite load_task_module_result, Hcode, Hfin, He.
  - intros Hno. by apply load_task_module_no_code.
Qed.

Lemma sample_load_failures :
  (is_Exception SystemExit = false ∧
   ∃ prog, loaded_code one_exits st0 (descriptor "task_A" "A")
             = Some (Ret prog) ∧
           finish prog = Some SystemExit) ∧
  (load_task_module one_fails (descriptor "task_A" "A") st0).1 = Ret None ∧
  (load_task_module one_exits (descriptor "task_A" "A") st0).1
    = Raise SystemExit ∧
  (load_task_module one_corrupt (descriptor "task_B" "B") st0).1 = Ret None ∧
  (load_task_module one_corrupt (descriptor "task_Z" "Z") st0).1 = Ret None.
Proof.
  split; [|split; [|split; [|split]]].
  - apply (proj1 (only_non_Exceptions_escape one_exits
                    (descriptor "task_A" "A") st0)).
    reflexivity.
  - apply (proj1 (proj2 (only_non_Exceptions_escape one_fails
                           (descriptor "task_A" "A") st0))
             fails ValueError); reflexivity.
  - apply (proj1 (proj2 (proj2 (only_non_Exceptions_escape one_exits
                                  (descriptor "task_A" "A") st0)))
             exits SystemExit); reflexivity.
  - apply (proj2 (proj2 (proj2 (only_non_Exceptions_escape one_corrupt
                                  (descriptor "task_B" "B") st0)))).
    intros prog H. vm_compute in H. discriminate.
  - apply (proj2 (proj2 (proj2 (only_non_Exceptions_escape one_corrupt
                                  (descriptor "task_Z" "Z") st0)))).
    intros prog H. vm_compute in H. discriminate.
Defined.

(** C9, as stated, fails: an entry point that exits the interpreter makes
    [load_task_module] raise [SystemExit] to its caller. *)
Lemma lazy_load_reraises_SystemExit :
  (load_task_module one_exits (descriptor "task_A" "A") st0).1
    = Raise SystemExit.
Proof. reflexivity. Qed.

(** ** What gets into the result of [get_task_module] *)

Lemma forallb_elem_of {A} (f : A → bool) (l : list A) x :
  forallb f l = true → x ∈ l → f x = true.
Proof.
  intros Hall Hin. apply list_elem_of_In in Hin.
  by apply (proj1 (forallb_forall f l) Hall).
Qed.

Lemma hasattr_lookup m h : hasattr m h = true ↔ is_Some (mod_dict m !! h).
Proof. unfold hasattr. apply bool_decide_eq_true. Qed.

Lemma call_attr_str m h s :
  call_attr m h = Ret (VStr s) ↔
  mod_dict m !! h = Some (VFun (Returns (VStr s))).
Proof.
  unfold call_attr. split.
  - by destruct (mod_dict m !! h) as [[| | |[[]|]]|]; intros [= <-].
  - by intros ->.
Qed.

(** A round that returns has either skipped its entry or appended one
    identity and one module. The module is the object created for the
    entry in this round: the code of the entry point ran in it to
    completion and stored it in [sys.modules], the import system found a
    spec under the name of the entry, and the code that came with that
    spec, if any, ran in it to completion as well. Its namespace holds what
    both bind, the second over the first, with the four required names
    among them, and the identity is what its [get_name] returns. *)
Lemma task_module_step_appended E task_path acc entry st acc' st' :
  task_module_step E task_path acc entry st = (Ret acc', st') →
  acc' = acc ∨
  ∃ s prog fd body,
    acc' = (acc.1 ++ [s],
            acc.2 ++ [{| mod_id := next_id st; mod_name := entry;
                         mod_origin := found_origin fd;
                         mod_dict := body_binds body ∪ binds prog |}]) ∧
    is_candidate E task_path entry = true ∧
    entry_code E st task_path entry = Ret prog ∧
    finish prog = None ∧
    (well_formed st → registers prog = true) ∧
    find_spec E entry = Some fd ∧
    found_code E st fd = Ret body ∧
    (∀ b, body = Some b → finish b = None) ∧
    (∀ h, h ∈ required_funcs →
          is_Some ((body_binds body ∪ binds prog) !! h)) ∧
    (body_binds body ∪ binds prog) !! py "get_name"
      = Some (VFun (Returns (VStr s))).
Proof.
  rewrite task_module_step_unfold. cbv zeta.
  destruct (is_candidate E task_path entry) eqn:Hcand;
    [|intros [= <- <-]; by left].
  destruct (entry_code E st task_path entry) as [prog|e] eqn:Hcode;
    [|intros [= <- <-]; by left].
  destruct (finish prog) as [e|] eqn:Hfin.
  { destruct (is_Exception e); [intros [= <- <-]; by left|done]. }
  set (m := new_module _ st).
  set (st1 := after_exec E SourceFileLoader _ prog m (allocated st)).
  destruct (reload E (executed prog m) st1) as [[m2|e] st2] eqn:Hrel.
  2:{ destruct (is_Exception e); [intros [= <- <-]; by left|done]. }
  destruct (forallb _ required_funcs) eqn:Hall; [|intros [= <- <-]; by left].
  destruct (call_attr _ _) as [[| |s|]|e] eqn:Hcall;
    try (intros [= <- <-]; by left);
    [|destruct (is_Exception e); [intros [= <- <-]; by left|done]].
  intros [= <- <-]. right.
  apply reload_Ret in Hrel as (Hreg & fd & body & Hfd & Hbody & Hfinb & Hm2).
  assert (mod_dict (executed prog m) = binds prog) as Hdict.
  { unfold m. by rewrite executed_new_module. }
  rewrite Hdict in Hm2. simpl in Hm2, Hfd. subst m2.
  exists s, prog, fd, body. split; [done|]. split; [done|].
  split; [done|]. split; [done|]. split; [|split; [done|split; [|split]]].
  - intros [Hwf _]. unfold st1 in Hreg.
    apply after_exec_Loaded in Hreg as [(? & _)|Hreg]; [done|].
    apply Hwf in Hreg. simpl in Hreg. lia.
  - rewrite <- Hbody. symmetry. apply found_code_same.
    apply (same_code_trans _ _ (allocated st));
      [by apply same_code_pycache|by apply same_code_after_exec].
  - done.
  - split.
    + intros h Hh. apply (forallb_elem_of _ _ h) in Hall; [|done].
      by apply hasattr_lookup in Hall.
    + by apply call_attr_str in Hcall.
Qed.

(** Every module in the result of [get_task_module], traced back to the
    state in which the scan started. *)
Lemma get_task_module_modules E task_path st names modules st' m :
  get_task_module E task_path st = (Ret (names, modules), st') →
  m ∈ modules →
  ∃ s prog fd body,
    s ∈ names ∧
    mod_name m ∈ entries_of E task_path ∧
    is_candidate E task_path (mod_name m) = true ∧
    entry_code E st task_path (mod_name m) = Ret prog ∧
    finish prog = None ∧
    (well_formed st → registers prog = true) ∧
    find_spec E (mod_name m) = Some fd ∧
    found_code E st fd = Ret body ∧
    (∀ b, body = Some b → finish b = None) ∧
    mod_origin m = found_origin fd ∧
    mod_dict m = body_binds body ∪ binds prog ∧
    (∀ h, h ∈ required_funcs → is_Some (mod_dict m !! h)) ∧
    mod_dict m !! py "get_name" = Some (VFun (Returns (VStr s))).
Proof.
  unfold get_task_module, entries_of, bind, lift.
  destruct (listdir E task_path) as [entries|e]; [|done].
  intros Hrun.
  set (ok := λ (acc : list pystr * list module) m,
         ∃ s prog fd body,
           s ∈ acc.1 ∧
           mod_name m ∈ entries ∧
           is_candidate E task_path (mod_name m) = true ∧
           entry_code E st task_path (mod_name m) = Ret prog ∧
           finish prog = None ∧
           (well_formed st → registers prog = true) ∧
           find_spec E (mod_name m) = Some fd ∧
           found_code E st fd = Ret body ∧
           (∀ b, body = Some b → finish b = None) ∧
           mod_origin m = found_origin fd ∧
           mod_dict m = body_binds body ∪ binds prog ∧
           (∀ h, h ∈ required_funcs → is_Some (mod_dict m !! h)) ∧
           mod_dict m !! py "get_name" = Some (VFun (Returns (VStr s)))).
  pose proof (for_each_ind (task_module_step E task_path)
                (λ acc st1,
                   same_code E st st1 ∧
                   (well_formed st → well_formed st1) ∧
                   ∀ m, m ∈ acc.2 → ok acc m)
                entries) as Hind.
  refine (proj2 (proj2 (Hind _ _ _ _ _ _ Hrun)) m);
    [|split; [apply same_code_refl|split; [done|by intros ? ?%elem_of_nil]]].
  clear Hrun m. intros acc entry st1 acc' st1' Hin (Hsame & Hwf & Hacc) Hstep.
  pose proof (task_module_step_state _ _ _ _ _ _ _ Hstep) as (_ & Hsame1 & _).
  split; [by apply (same_code_trans _ _ st1)|].
  split.
  { intros H. apply Hwf in H.
    exact (task_module_step_well_formed _ _ _ _ _ _ _ H Hstep). }
  apply task_module_step_appended in Hstep
    as [->|(s & prog & fd & body & -> & Hcand & Hcode & Hfin & Hreg & Hfd
            & Hbody & Hfinb & Hall & Hname)]; [done|].
  simpl. intros m [Hm|Hm]%elem_of_app.
  - destruct (Hacc m Hm) as (s' & prog' & fd' & body' & Hs' & H').
    exists s', prog', fd', body'. split; [|done].
    simpl. apply elem_of_app. by left.
  - apply list_elem_of_singleton in Hm as ->.
    exists s, prog, fd, body. simpl.
    split; [apply elem_of_app; right; by apply list_elem_of_singleton|].
    split; [done|]. split; [done|].
    split; [by rewrite <- (entry_code_same _ _ _ _ _ Hsame)|].
    split; [done|]. split; [auto|]. split; [done|].
    split; [by rewrite <- (found_code_same _ _ _ _ Hsame)|]. done.
Qed.

(** C10. The two lists [get_task_module] returns have the same length, and
    the identity at each position is the string that calling [get_name] of
    the module at that position returns. *)
Theorem names_aligned_with_modules E task_path st names modules st' :
  get_task_module E task_path st = (Ret (names, modules), st') →
  length names = length modules ∧
  ∀ i s m,
    names !! i = Some s → modules !! i = Some m →
    call_attr m (py "get_name") = Ret (VStr s).
Proof.
  intros Hrun.
  assert (Forall2 (λ s m, call_attr m (py "get_name") = Ret (VStr s))
            names modules) as Hall.
  { revert Hrun. unfold get_task_module, bind, lift.
    destruct (listdir E task_path) as [entries|e]; [|done].
    intros Hrun.
    apply (for_each_ind (task_module_step E task_path)
             (λ acc _, Forall2
                         (λ s m, call_attr m (py "get_name") = Ret (VStr s))
                         acc.1 acc.2)) in Hrun; [done| |by constructor].
    intros acc entry st1 acc' st1' _ Hacc Hstep.
    apply task_module_step_appended in Hstep
      as [->|(s & prog & fd & body & -> & _ & _ & _ & _ & _ & _ & _ & _
              & Hname)]; [done|].
    apply Forall2_app; [exact Hacc|]. constructor; [|constructor].
    by apply call_attr_str. }
  split; [by eapply Forall2_length|].
  intros i s m Hs Hm.
  exact (Forall2_lookup_lr _ names modules i s m Hall Hs Hm).
Qed.

Lemma one_registered_aligned :
  let m := {| mod_id := 0; mod_name := py "task_A"; mod_origin := None;
              mod_dict := binds (valid_task "A") |} in
  length [py "A"] = length [m] ∧
  ∀ i s m',
    [py "A"] !! i = Some s → [m] !! i = Some m' →
    call_attr m' (py "get_name") = Ret (VStr s).
Proof.
  intros m.
  apply (names_aligned_with_modules one_registered tasks st0 [py "A"] [m]
           (get_task_module one_registered tasks st0).2).
  vm_compute. reflexivity.
Defined.

(** ** Hooks of the modules that are returned *)

(** The loop of [load_task_module] over the required names lets a module
    through only if each of them is bound to a callable. *)
Lemma check_required_Some fs m m' :
  check_required fs m = Some m' ↔
  m' = m ∧ Forall (λ h, hasattr m h = true ∧ callable_attr m h = true) fs.
Proof.
  induction fs as [|h fs IH]; simpl.
  - split; [by intros [= <-]|by intros [-> _]].
  - rewrite Forall_cons.
    destruct (hasattr m h), (callable_attr m h); simpl; rewrite ?IH;
      intuition congruence.
Qed.

Lemma check_required_None fs m h :
  h ∈ fs → hasattr m h = false → check_required fs m = None.
Proof.
  intros Hin Hh. destruct (check_required fs m) as [m'|] eqn:Hc; [|done].
  apply check_required_Some in Hc as [_ Hall].
  rewrite Forall_forall in Hall. destruct (Hall h Hin). congruence.
Qed.

Lemma Ret_eq {A} (a b : A) : Ret a = Ret b → a = b.
Proof. by intros [= ->]. Qed.

(** A module that [load_task_module] returns binds each name of
    [REQUIRED_FUNCTIONS] to a callable. *)
Lemma load_task_module_hooks E task_info st m :
  (load_task_module E task_info st).1 = Ret (Some m) →
  Forall (λ h, hasattr m h = true ∧ callable_attr m h = true)
    REQUIRED_FUNCTIONS.
Proof.
  rewrite load_task_module_result.
  destruct (loaded_code E st task_info) as [[prog|]|]; [|done..].
  destruct (finish prog) as [e|].
  - by destruct (is_Exception e).
  - intros Hc%Ret_eq. by apply check_required_Some in Hc as [-> ?].
Qed.

(** [load_task_module] returns no module for code that runs to completion
    without binding one of [REQUIRED_FUNCTIONS]. *)
Lemma load_task_module_incomplete E task_info st prog h :
  loaded_code E st task_info = Some (Ret prog) →
  finish prog = None →
  h ∈ REQUIRED_FUNCTIONS →
  binds prog !! h = None →
  (load_task_module E task_info st).1 = Ret None.
Proof.
  intros Hcode Hfin Hin Hh. rewrite load_task_module_result, Hcode, Hfin.
  rewrite (check_required_None _ _ h); [done..|].
  apply not_true_is_false. rewrite hasattr_lookup. simpl. rewrite Hh.
  by intros [? ?].
Qed.

Lemma call_attr_callable m h v :
  call_attr m h = Ret v → callable_attr m h = true.
Proof.
  unfold call_attr, callable_attr.
  by destruct (mod_dict m !! h) as [[| | |[]]|].
Qed.

(** A module that [get_task_module] returns has the four names of
    [required_funcs] as attributes, and its [get_name] is callable; the
    other three are not looked at any further. *)
Lemma get_task_module_hooks E task_path st names modules st' :
  get_task_module E task_path st = (Ret (names, modules), st') →
  ∀ m, m ∈ modules →
       forallb (hasattr m) required_funcs = true ∧
       callable_attr m (py "get_name") = true.
Proof.
  intros Hrun m Hm.
  destruct (get_task_module_modules _ _ _ _ _ _ _ Hrun Hm)
    as (s & prog & fd & body & _ & _ & _ & _ & _ & _ & _ & _ & _ & _ & _
        & Hall & Hname).
  split.
  - apply forallb_forall. intros h Hh%list_elem_of_In.
    apply hasattr_lookup. by apply Hall.
  - unfold callable_attr. by rewrite Hname.
Qed.

(** C6. [get_task_module] only tests that the four names exist: for a
    plugin that registers itself and binds [pre_proc] to an integer, it
    returns a module whose [pre_proc] cannot be called. *)
Theorem non_callable_hook_returned :
  ∃ m st',
    get_task_module one_not_callable tasks st0 = (Ret ([py "A"], [m]), st') ∧
    mod_dict m !! py "pre_proc" = Some (VInt 1) ∧
    hasattr m (py "pre_proc") = true ∧
    callable_attr m (py "pre_proc") = false.
Proof. eexists _, _. by vm_compute. Qed.

(** [load_task_module] rejects the same entry point. *)
Example load_task_module_rejects_non_callable :
  (load_task_module one_not_callable (descriptor "task_A" "A") st0).1
    = Ret None.
Proof. reflexivity. Qed.

(** ** The interface gate *)


(** C5. A package whose [main.py] defines three of the four hooks,
    [pre_proc] missing, and stores its module in [sys.modules]:
    [load_task_module] returns [None] for it, but [get_task_module] returns
    it. Its reload executes the [__init__.py] of the package in the module
    that ran [main.py], and the [pre_proc] bound there passes the test of
    the four names. *)
Theorem incomplete_entry_point_returned :
  entry_code one_package st0 tasks (py "task_C")
    = Ret (self_registering without_pre_proc) ∧
  binds (self_registering without_pre_proc) !! py "pre_proc" = None ∧
  (load_task_module one_package (descriptor "task_C" "C") st0).1 = Ret None ∧
  ∃ m st',
    get_task_module one_package tasks st0 = (Ret ([py "C"], [m]), st') ∧
    mod_id m = 0 ∧
    mod_name m = py "task_C" ∧
    mod_dict m = binds init_with_pre_proc ∪ binds without_pre_proc ∧
    exec_log st' = [(entry_point tasks (py "task_C"), 0);
                    (tasks ++ [py "task_C"; py "__init__.py"], 0)].
Proof.
  split; [by vm_compute|]. split; [by vm_compute|]. split; [by vm_compute|].
  eexists _, _. split; [vm_compute; reflexivity|]. by vm_compute.
Qed.

(** Without the [__init__.py], the same entry point is passed over by both
    flows. *)
Example get_task_module_one_incomplete :
  (load_task_module one_incomplete (descriptor "task_C" "C") st0).1
    = Ret None ∧
  (get_task_module one_incomplete tasks st0).1 =
    Ret ([py "A"],
         [{| mod_id := 0; mod_name := py "task_A"; mod_origin := None;
             mod_dict := binds (valid_task "A") |}]).
Proof. split; vm_compute; reflexivity. Qed.

(** ** Fresh loads *)

(** When [load_task_module] returns a module, and which one. *)
Lemma load_task_module_Some_iff E task_info st m :
  (load_task_module E task_info st).1 = Ret (Some m) ↔
  ∃ prog,
    loaded_code E st task_info = Some (Ret prog) ∧
    finish prog = None ∧
    Forall (λ h, ∃ r, binds prog !! h = Some (VFun r)) REQUIRED_FUNCTIONS ∧
    m = {| mod_id := next_id st;
           mod_name := module_id task_info;
           mod_origin := Some (main_py_path task_info);
           mod_dict := binds prog |}.
Proof.
  assert (∀ m h, hasattr m h = true ∧ callable_attr m h = true ↔
                 ∃ r, mod_dict m !! h = Some (VFun r)) as Hcallable.
  { intros m0 h. rewrite hasattr_lookup. unfold callable_attr. split.
    - intros [_ H]. destruct (mod_dict m0 !! h) as [[| | |r]|]; try done.
      eauto.
    - intros [r ->]. split; [by eexists|done]. }
  rewrite load_task_module_result.
  destruct (loaded_code E st task_info) as [[prog|e]|];
    [|split; [done|by intros (? & [=] & _)]..].
  destruct (finish prog) as [e|] eqn:Hfin.
  - split; [by destruct (is_Exception e)|].
    intros (prog' & [= <-] & Hfin' & _). congruence.
  - split.
    + intros [-> Hall]%Ret_eq%check_required_Some.
      exists prog. split; [done|]. split; [done|]. split; [|done].
      eapply Forall_impl; [exact Hall|]. intros h Hh.
      by apply Hcallable in Hh.
    + intros (prog' & [= <-] & _ & Hall & ->). f_equal.
      apply check_required_Some. split; [done|].
      eapply Forall_impl; [exact Hall|]. intros h Hh. by apply Hcallable.
Qed.






(** After an edit that changes the modification time of the file, the
    second load runs the new content. *)
Example load_task_module_scenario_edited :
  (load_task_module scenario_edited (descriptor "task_A" "Alpha Task")
     (load_task_module scenario (descriptor "task_A" "Alpha Task") st0).2).1
  = Ret (Some {| mod_id := 1;
                 mod_name := py "task_A_main";
                 mod_origin := Some (entry_point tasks (py "task_A"));
                 mod_dict := binds (valid_task "A2") |}).
Proof. vm_compute. reflexivity. Qed.

(** * Further properties *)

(** ** Metadata-first discovery: which descriptors, in which order *)

(** A round of [get_task_info_list] appends the descriptor of its entry if
    the entry has an identity, and nothing otherwise. *)
Lemma task_info_step_identity E task_folder acc subdir_name st :
  task_info_step E task_folder acc subdir_name st =
    (Ret (acc ++ match sidecar_identity E task_folder subdir_name with
                 | Some label => [descriptor_of task_folder subdir_name label]
                 | None => []
                 end), st).
Proof.
  unfold task_info_step, sidecar_identity.
  destruct (exists_ E (join (join task_folder subdir_name) (py "main.py")));
    simpl; [|by rewrite (right_id_L [] (++))].
  destruct (exists_ E _); simpl; [|by rewrite (right_id_L [] (++))].
  unfold try_except, bind, lift, ret.
  destruct (read_text E _) as [s|e] eqn:Hread; simpl.
  - destruct (strip s); [by rewrite (right_id_L [] (++))|done].
  - rewrite (right_id_L [] (++)). unfold read_text in Hread.
    destruct (resolve (root E) _) as [[f|?]| |];
      [destruct (text f)|..]; by simplify_eq.
Qed.

Lemma for_each_task_info_step E task_folder l :
  ∀ acc st,
    for_each (task_info_step E task_folder) l acc st =
      (Ret (acc ++ omap (λ subdir_name,
                           descriptor_of task_folder subdir_name
                             <$> sidecar_identity E task_folder subdir_name)
                     l), st).
Proof.
  induction l as [|x l IH]; intros acc st; simpl.
  - by rewrite (right_id_L [] (++)).
  - unfold bind. rewrite task_info_step_identity, IH.
    rewrite <- (assoc_L (++)).
    by destruct (sidecar_identity E task_folder x).
Qed.

(** The descriptors of a directory, entry by entry. *)
Lemma get_task_info_list_listed E task_folder es st :
  resolve (root E) task_folder = Found (Dir es) →
  get_task_info_list E task_folder st =
    (Ret (omap (λ subdir_name,
                  descriptor_of task_folder subdir_name
                    <$> sidecar_identity E task_folder subdir_name)
            (es.*1)), st).
Proof.
  intros Hres. unfold get_task_info_list, isdir, bind, lift, listdir.
  rewrite Hres. simpl. by rewrite for_each_task_info_step.
Qed.

(** On any path [get_task_info_list] returns the descriptors of the entries
    that have an identity, and leaves the interpreter as it was. *)
Lemma get_task_info_list_identities E task_folder st :
  get_task_info_list E task_folder st =
    (Ret (omap (λ subdir_name,
                  descriptor_of task_folder subdir_name
                    <$> sidecar_identity E task_folder subdir_name)
            (entries_of E task_folder)), st).
Proof.
  unfold entries_of, listdir.
  destruct (resolve (root E) task_folder) as [[f|es]| |] eqn:Hres;
    [|by apply get_task_info_list_listed|..];
    unfold get_task_info_list, isdir; by rewrite Hres.
Qed.

Lemma omap_descriptor_names (g : pystr → option pystr) task_folder
    (l : list pystr) :
  name <$> omap (λ x, descriptor_of task_folder x <$> g x) l
    = filter (λ x, is_Some (g x)) l.
Proof.
  induction l as [|x l IH]; simpl; [done|]. rewrite filter_cons.
  destruct (g x) as [d|]; simpl; [by f_equal|done].
Qed.

Lemma elem_of_omap_descriptor (g : pystr → option pystr) task_folder
    (l : list pystr) info :
  info ∈ omap (λ x, descriptor_of task_folder x <$> g x) l →
  name info ∈ l ∧
  g (name info) = Some (description info) ∧
  info = descriptor_of task_folder (name info) (description info).
Proof.
  intros (x & Hx & Hinfo)%list_elem_of_omap.
  destruct (g x) as [d|] eqn:Hg; [|done]. injection Hinfo as <-. by simpl.
Qed.

(** X1. [get_task_info_list] lists exactly the entries of the directory
    that have an identity (both files there, [name.txt] readable and not
    blank), in the order of the directory listing, each with that identity
    as its description; no plugin code is run and the interpreter state is
    untouched. *)
Theorem descriptors_follow_listing E task_folder st :
  ∃ infos,
    get_task_info_list E task_folder st = (Ret infos, st) ∧
    name <$> infos
      = filter (λ x, is_Some (sidecar_identity E task_folder x))
          (entries_of E task_folder) ∧
    ∀ info, info ∈ infos →
            sidecar_identity E task_folder (name info)
              = Some (description info).
Proof.
  eexists. split; [by apply get_task_info_list_identities|].
  split; [apply omap_descriptor_names|].
  by intros info (_ & ? & _)%elem_of_omap_descriptor.
Qed.

(** In the end-to-end layout only [task_A] has an identity. *)
Example scenario_identities :
  filter (λ x, is_Some (sidecar_identity scenario tasks x))
    (entries_of scenario tasks) = [py "task_A"].
Proof. by vm_compute. Qed.

(** X2. Every descriptor that [get_task_info_list] returns is ready for
    [load_task_module]: its name is an entry of the directory, its
    [main_py_path] is [main.py] in that subdirectory and exists, its
    [module_id] is the name followed by [_main], and the import machinery
    has a loader for the path. *)
Theorem descriptors_loadable E task_folder st infos st' info :
  get_task_info_list E task_folder st = (Ret infos, st') →
  info ∈ infos →
  name info ∈ entries_of E task_folder ∧
  main_py_path info = entry_point task_folder (name info) ∧
  module_id info = name info ++ py "_main" ∧
  exists_ E (main_py_path info) = true ∧
  is_Some (spec_from_file_location (module_id info) (main_py_path info)).
Proof.
  rewrite get_task_info_list_identities.
  intros [= <- <-] (Hin & Hid & ->)%elem_of_omap_descriptor. simpl.
  split; [done|]. split; [done|]. split; [done|]. split.
  - revert Hid. unfold sidecar_identity, entry_point.
    by destruct (exists_ E (join (join task_folder (name info))
                              (py "main.py"))).
  - unfold entry_point. rewrite spec_from_file_location_main. eauto.
Qed.

Lemma scenario_descriptor_loadable :
  let info := descriptor "task_A" "Alpha Task" in
  name info ∈ entries_of scenario tasks ∧
  main_py_path info = entry_point tasks (name info) ∧
  module_id info = name info ++ py "_main" ∧
  exists_ scenario (main_py_path info) = true ∧
  is_Some (spec_from_file_location (module_id info) (main_py_path info)).
Proof.
  intros info.
  apply (descriptors_loadable scenario tasks st0 [info] st0 info).
  - vm_compute. reflexivity.
  - left.
Defined.

(** ** Metadata-first discovery: the descriptions *)

(** Stripping on the right keeps the first character. *)
Lemma head_rstrip s c : head (rstrip s) = Some c → head s = Some c.
Proof.
  destruct s as [|d s]; simpl; [done|].
  destruct (rstrip s); [by destruct (py_isspace d)|done].
Qed.

(** What [strip] returns neither starts nor ends with whitespace. *)
Lemma strip_ends s c :
  head (strip s) = Some c ∨ last (strip s) = Some c → py_isspace c = false.
Proof.
  unfold strip. intros [Hhd|Hlast].
  - apply head_rstrip in Hhd.
    destruct (lstrip_spec s) as (_ & _ & _ & H). by apply H.
  - destruct (rstrip_spec (lstrip s)) as (_ & _ & _ & H). by apply H.
Qed.

(** Stripping a second time changes nothing. *)
Lemma strip_strip s : strip (strip s) = strip s.
Proof.
  assert (∀ t, (∀ c, head t = Some c → py_isspace c = false) → lstrip t = t)
    as Hl.
  { intros [|c t] H; simpl; [done|]. by rewrite (H c). }
  assert (∀ t, rstrip (rstrip t) = rstrip t) as Hr.
  { induction t as [|c t IH]; simpl; [done|].
    destruct (rstrip t) as [|d r] eqn:Ht.
    - destruct (py_isspace c) eqn:Hc; simpl; [done|by rewrite Hc].
    - simpl in *. rewrite IH. done. }
  unfold strip at 1. rewrite Hl; [apply Hr|].
  intros c Hc. apply (strip_ends s). by left.
Qed.

(** X3. The description of a descriptor that [get_task_info_list] returns
    neither starts nor ends with a whitespace character, and stripping it
    again leaves it as it is. *)
Theorem descriptions_trimmed E task_folder st infos st' info :
  get_task_info_list E task_folder st = (Ret infos, st') →
  info ∈ infos →
  (∀ c, head (description info) = Some c ∨ last (description info) = Some c →
        py_isspace c = false) ∧
  strip (description info) = description info.
Proof.
  rewrite get_task_info_list_identities.
  intros [= <- <-] (_ & Hid & _)%elem_of_omap_descriptor.
  assert (∃ s, description info = strip s) as [s ->].
  { revert Hid. unfold sidecar_identity. destruct (_ && _); [|done].
    destruct (read_text E _) as [s|]; [|done]. exists s.
    destruct (strip s); by simplify_eq. }
  split; [apply strip_ends|apply strip_strip].
Qed.

Lemma scenario_description_trimmed :
  let info := descriptor "task_A" "Alpha Task" in
  (∀ c, head (description info) = Some c ∨ last (description info) = Some c →
        py_isspace c = false) ∧
  strip (description info) = description info.
Proof.
  intros info.
  apply (descriptions_trimmed scenario tasks st0 [info] st0 info).
  - vm_compute. reflexivity.
  - left.
Defined.

(** X4. When the names in the directory are pairwise different, so are the
    names and the [module_id]s of the descriptors [get_task_info_list]
    returns: no two descriptors share a load identity. *)
Theorem module_ids_distinct E task_folder st infos st' :
  NoDup (entries_of E task_folder) →
  get_task_info_list E task_folder st = (Ret infos, st') →
  NoDup (name <$> infos) ∧ NoDup (module_id <$> infos).
Proof.
  intros Hnodup. rewrite get_task_info_list_identities. intros [= <- <-].
  assert (NoDup (name <$> omap
                   (λ x, descriptor_of task_folder x
                           <$> sidecar_identity E task_folder x)
                   (entries_of E task_folder))) as Hnames.
  { rewrite omap_descriptor_names. by apply NoDup_filter. }
  split; [done|].
  rewrite (list_fmap_ext module_id ((λ n, n ++ py "_main") ∘ name) _).
  - rewrite list_fmap_compose. apply NoDup_fmap_2; [|done].
    intros n1 n2 Heq. by apply app_inv_tail in Heq.
  - by intros i info (_ & _ & ->)%list_elem_of_lookup_2%elem_of_omap_descriptor.
Qed.

Lemma four_sidecars_distinct_ids :
  NoDup (name <$> [descriptor "task_A" "Alpha"; descriptor "task_B" "Beta"]) ∧
  NoDup (module_id
           <$> [descriptor "task_A" "Alpha"; descriptor "task_B" "Beta"]).
Proof.
  apply (module_ids_distinct four_sidecars tasks st0 _ st0).
  - vm_compute. repeat constructor; rewrite ?elem_of_cons, ?elem_of_nil;
      intros H; repeat destruct H as [H|H]; discriminate || done.
  - vm_compute. reflexivity.
Defined.

(** X5. A subdirectory whose [name.txt] cannot be read as text, because it
    is a directory or because its bytes do not decode, is passed over:
    [get_task_info_list] still returns, and no descriptor bears the name of
    that subdirectory. *)
Theorem unreadable_sidecar_skipped E task_folder st subdir_name :
  (∃ es, resolve (root E) (join (join task_folder subdir_name)
                            (py "name.txt")) = Found (Dir es)) ∨
  (∃ f, resolve (root E) (join (join task_folder subdir_name)
                           (py "name.txt")) = Found (File f) ∧
        text f = None) →
  ∃ infos,
    get_task_info_list E task_folder st = (Ret infos, st) ∧
    ∀ info, info ∈ infos → name info ≠ subdir_name.
Proof.
  intros Hbad. eexists. split; [apply get_task_info_list_identities|].
  intros info (_ & Hid & _)%elem_of_omap_descriptor Hname.
  rewrite Hname in Hid. revert Hid. unfold sidecar_identity, read_text.
  destruct (_ && _); [|done].
  destruct Hbad as [[es ->]|(f & -> & ->)]; done.
Qed.

Lemma four_sidecars_unreadable_skipped :
  (∃ infos,
     get_task_info_list four_sidecars tasks st0 = (Ret infos, st0) ∧
     ∀ info, info ∈ infos → name info ≠ py "task_D") ∧
  (∃ infos,
     get_task_info_list four_sidecars tasks st0 = (Ret infos, st0) ∧
     ∀ info, info ∈ infos → name info ≠ py "task_U").
Proof.
  split.
  - apply (unreadable_sidecar_skipped four_sidecars tasks st0 (py "task_D")).
    left. eexists. reflexivity.
  - apply (unreadable_sidecar_skipped four_sidecars tasks st0 (py "task_U")).
    right. eexists. split; reflexivity.
Defined.

(** The two readable sidecars of that tree give the two descriptors. *)
Example get_task_info_list_four_sidecars :
  get_task_info_list four_sidecars tasks st0 =
    (Ret [descriptor "task_A" "Alpha"; descriptor "task_B" "Beta"], st0).
Proof. vm_compute. reflexivity. Qed.


(** ** [load_task_module]: when a load succeeds *)

(** X6. [load_task_module] returns a module exactly when code is obtained
    for the descriptor (a file loader serves the path, and the source
    loader finds a bytecode file to use or a source that compiles, the
    other loaders a file that holds code), that code runs to completion,
    and it binds each of the four [REQUIRED_FUNCTIONS] to a callable; the
    module returned is then the one created by this call, named
    [module_id], holding the names the code binds. *)
Theorem load_task_module_success E task_info st m :
  (load_task_module E task_info st).1 = Ret (Some m) ↔
  ∃ prog,
    loaded_code E st task_info = Some (Ret prog) ∧
    finish prog = None ∧
    Forall (λ h, ∃ r, binds prog !! h = Some (VFun r)) REQUIRED_FUNCTIONS ∧
    m = {| mod_id := next_id st;
           mod_name := module_id task_info;
           mod_origin := Some (main_py_path task_info);
           mod_dict := binds prog |}.
Proof. apply load_task_module_Some_iff. Qed.

(** The entry point of [task_A] in the end-to-end layout loads. *)
Example load_task_module_scenario :
  (load_task_module scenario (descriptor "task_A" "Alpha Task") st0).1 =
    Ret (Some {| mod_id := 0;
                 mod_name := py "task_A_main";
                 mod_origin := Some (entry_point tasks (py "task_A"));
                 mod_dict := binds (valid_task "A") |}).
Proof. vm_compute. reflexivity. Qed.

(** No code is obtained where there is nothing, unless a bytecode file is
    left there, and none without a file loader. *)
Lemma loaded_code_missing E st task_info :
  spec_from_file_location (module_id task_info) (main_py_path task_info)
    = None ∨
  exists_ E (main_py_path task_info) = false →
  ∀ prog, loaded_code E st task_info ≠ Some (Ret prog).
Proof.
  unfold loaded_code. intros [->|Hex] prog; [done|].
  destruct (spec_from_file_location _ _) as [spec|] eqn:Hspec; [|done].
  apply spec_from_file_location_Some in Hspec.
  assert (spec_origin spec = main_py_path task_info) as Horigin
    by by rewrite Hspec.
  cbn [fmap option_fmap option_map]. rewrite Horigin.
  intros [= Hcode]. revert Hcode.
  unfold code_of, cached_bytecode, read_code. rewrite Hex.
  unfold exists_ in Hex.
  destruct (spec_loader spec);
    by destruct (resolve (root E) (main_py_path task_info)) as [[f|?]| |].
Qed.

(** X7. When no code is obtained for the descriptor (no file loader serves
    the path, there is nothing at the path, or what is there yields no
    code), [load_task_module] returns [None] without running any code and
    without touching [sys.modules]. *)
Theorem load_without_entry_point E task_info st :
  (∀ prog, loaded_code E st task_info ≠ Some (Ret prog)) →
  (load_task_module E task_info st).1 = Ret None ∧
  exec_log (load_task_module E task_info st).2 = exec_log st ∧
  sys_modules (load_task_module E task_info st).2 = sys_modules st.
Proof. apply load_task_module_no_code. Qed.

Lemma sample_loads_without_entry_point :
  let no_loader := {| name := py "task_A"; description := py "A";
                      main_py_path := tasks ++ [py "task_A"; py "name.txt"];
                      module_id := py "task_A_main" |} in
  ((load_task_module scenario no_loader st0).1 = Ret None ∧
   exec_log (load_task_module scenario no_loader st0).2 = exec_log st0 ∧
   sys_modules (load_task_module scenario no_loader st0).2
     = sys_modules st0) ∧
  ((load_task_module scenario (descriptor "task_Z" "Z") st0).1 = Ret None ∧
   exec_log (load_task_module scenario (descriptor "task_Z" "Z") st0).2
     = exec_log st0 ∧
   sys_modules (load_task_module scenario (descriptor "task_Z" "Z") st0).2
     = sys_modules st0) ∧
  ((load_task_module one_corrupt (descriptor "task_B" "B") st0).1 = Ret None ∧
   exec_log (load_task_module one_corrupt (descriptor "task_B" "B") st0).2
     = exec_log st0 ∧
   sys_modules (load_task_module one_corrupt (descriptor "task_B" "B") st0).2
     = sys_modules st0).
Proof.
  intros no_loader. split; [|split].
  - apply (load_without_entry_point scenario no_loader st0).
    apply loaded_code_missing. left. vm_compute. reflexivity.
  - apply (load_without_entry_point scenario (descriptor "task_Z" "Z") st0).
    apply loaded_code_missing. right. reflexivity.
  - apply (load_without_entry_point one_corrupt (descriptor "task_B" "B")
             st0).
    intros prog H. vm_compute in H. discriminate.
Defined.

(** ** [get_task_module]: the whole scan *)





(** A round on a candidate creates one module object, on another entry
    none. *)
Lemma task_module_step_next_id E task_path acc entry st r st' :
  task_module_step E task_path acc entry st = (r, st') →
  next_id st' = if is_candidate E task_path entry
                then S (next_id st) else next_id st.
Proof.
  rewrite task_module_step_unfold. cbv zeta.
  destruct (is_candidate E task_path entry); [|by intros [= _ <-]].
  destruct (entry_code E st task_path entry) as [prog|e];
    [|by intros [= _ <-]].
  set (m := new_module _ st).
  set (st1 := after_exec E SourceFileLoader _ prog m (allocated st)).
  assert (next_id st1 = S (next_id st)) as Hid1
    by exact (proj1 (after_exec_fields E SourceFileLoader
                       (entry_point task_path entry) prog m (allocated st))).
  destruct (finish prog) as [e|]; [by intros [= _ <-]|].
  destruct (reload E (executed prog m) st1) as [r2 st2] eqn:Hrel.
  apply reload_state in Hrel as (Hid2 & _). rewrite Hid1 in Hid2.
  repeat case_match; by intros [= _ <-].
Qed.



(** The rounds of [get_task_module] over a list of entries only append, and
    the modules they append are named after entries of the list, in the
    order of the list, at most one for each occurrence. *)
Lemma for_each_task_module_step_names E task_path l :
  ∀ acc st acc' st',
    for_each (task_module_step E task_path) l acc st = (Ret acc', st') →
    ∃ ss ms,
      acc' = (acc.1 ++ ss, acc.2 ++ ms) ∧
      length ss = length ms ∧
      mod_name <$> ms `sublist_of` l.
Proof.
  induction l as [|entry l IH]; intros acc st acc' st'; simpl.
  - unfold ret. intros [= <- <-]. exists [], [].
    rewrite !(right_id_L [] (++)). by destruct acc.
  - unfold bind.
    destruct (task_module_step E task_path acc entry st) as [[acc1|e] st1]
      eqn:Hstep; [|done].
    intros (ss & ms & -> & Hlen & Hsub)%IH.
    apply task_module_step_appended in Hstep
      as [->|(s & prog & fd & body & -> & _)].
    + exists ss, ms. split; [done|]. split; [done|]. by apply sublist_cons.
    + simpl. eexists (s :: ss), (_ :: ms).
      rewrite <- !(assoc_L (++)). split; [done|]. split; [simpl; lia|].
      simpl. by apply sublist_skip.
Qed.



(** X12. Whatever its outcome, [get_task_module] runs code only for entries
    of the directory that are directories holding a file [main.py], and
    only in module objects created during the call: the code of that
    [main.py], and what the import system finds under the name of the
    entry, which [importlib.reload] executes. Plain files and
    subdirectories without [main.py] cause no execution. *)
Theorem only_candidates_executed E task_path st :
  ∃ new,
    exec_log (get_task_module E task_path st).2 = exec_log st ++ new ∧
    ∀ p i, (p, i) ∈ new →
           next_id st ≤ i ∧
           ∃ entry, entry ∈ entries_of E task_path ∧
                    is_candidate E task_path entry = true ∧
                    (p = entry_point task_path entry ∨
                     ∃ fd, find_spec E entry = Some fd ∧
                           found_origin fd = Some p).
Proof.
  unfold get_task_module, entries_of, bind, lift.
  destruct (listdir E task_path) as [entries|e];
    [|exists []; split; [by rewrite (right_id_L [] (++))|
                         by intros ?? ?%elem_of_nil]].
  set (ok := λ st1 : interp,
         next_id st ≤ next_id st1 ∧
         ∃ new,
           exec_log st1 = exec_log st ++ new ∧
           ∀ p i, (p, i) ∈ new →
                  next_id st ≤ i ∧
                  ∃ entry, entry ∈ entries ∧
                           is_candidate E task_path entry = true ∧
                           (p = entry_point task_path entry ∨
                            ∃ fd, find_spec E entry = Some fd ∧
                                  found_origin fd = Some p)).
  destruct (for_each _ entries _ st) as [r st'] eqn:Hloop.
  apply (for_each_outcome (task_module_step E task_path)
           (λ _ st1, ok st1) (λ _ st1, ok st1)) in Hloop.
  - simpl. by destruct r; destruct Hloop as [_ ?].
  - intros acc entry st1 r1 st1' Hin (Hle & new & Hlog & Hnew) Hstep.
    pose proof (task_module_step_next_id _ _ _ _ _ _ _ Hstep) as Hid.
    apply task_module_step_state in Hstep
      as (_ & _ & _ & new1 & Hlog1 & Hnew1).
    assert (ok st1') as Hok.
    { split; [destruct (is_candidate _ _ _); lia|]. exists (new ++ new1).
      split; [by rewrite Hlog1, Hlog, (assoc_L (++))|].
      intros p i [?|Hx]%elem_of_app; [by apply Hnew|].
      destruct (Hnew1 _ _ Hx) as (-> & Hcand & Hp). split; [lia|]. eauto. }
    by destruct r1.
  - split; [done|]. exists []. split; [by rewrite (right_id_L [] (++))|].
    by intros ?? ?%elem_of_nil.
Qed.

(** In the end-to-end layout the scan runs the three entry points, in the
    order of the listing; for a package that registers itself it also runs
    the [__init__.py]. *)
Example get_task_module_scenario_log :
  exec_log (get_task_module scenario tasks st0).2 =
    [(entry_point tasks (py "task_A"), 0);
     (entry_point tasks (py "task_B"), 1);
     (entry_point tasks (py "task_C"), 2)] ∧
  exec_log (get_task_module one_package tasks st0).2 =
    [(entry_point tasks (py "task_C"), 0);
     (tasks ++ [py "task_C"; py "__init__.py"], 0)].
Proof. split; vm_compute; reflexivity. Qed.

(** A round on a candidate whose code runs to completion and registers the
    module, when the import system finds a spec without code under the
    name of the candidate: the reload leaves the namespace as it is, and
    the module is appended if the four names are there and [get_name]
    returns a string. *)
Lemma task_module_step_returns E task_path acc entry st prog origin s :
  is_candidate E task_path entry = true →
  entry_code E st task_path entry = Ret prog →
  finish prog = None →
  registers prog = true →
  find_spec E entry = Some (NoCode origin) →
  (∀ h, h ∈ required_funcs → is_Some (binds prog !! h)) →
  binds prog !! py "get_name" = Some (VFun (Returns (VStr s))) →
  (task_module_step E task_path acc entry st).1 =
    Ret (acc.1 ++ [s],
         acc.2 ++ [{| mod_id := next_id st; mod_name := entry;
                      mod_origin := origin; mod_dict := binds prog |}]).
Proof.
  intros Hcand Hcode Hfin Hreg Hfd Hall Hname.
  rewrite task_module_step_unfold. cbv zeta. rewrite Hcand, Hcode, Hfin.
  rewrite reload_unfold. cbv zeta.
  rewrite executed_new_module. cbn [mod_name mod_id spec_name].
  rewrite bool_decide_eq_true_2.
  2:{ rewrite (proj2 (proj2 (after_exec_fields _ _ _ _ _ _))), Hreg.
      simpl. by rewrite lookup_insert_eq. }
  rewrite Hfd. unfold with_origin.
  cbn [found_code found_origin mod_id mod_name mod_dict spec_origin].
  rewrite (proj2 (forallb_forall _ _)).
  - unfold call_attr. cbn [mod_dict]. by rewrite Hname.
  - intros h Hh%list_elem_of_In. apply hasattr_lookup. by apply Hall.
Qed.

(** X13. When [get_task_module] returns, its result holds a module for
    every candidate whose [main.py] yields code that runs to completion,
    registers its module in [sys.modules], binds the four required names
    and has a [get_name] returning a string, provided that the import
    system finds under the name of the candidate a spec without code (the
    plugin directory as a namespace package); that string is among the
    names returned. *)
Theorem registered_plugin_returned
    E task_path st names modules st' entry prog origin s :
  get_task_module E task_path st = (Ret (names, modules), st') →
  entry ∈ entries_of E task_path →
  is_candidate E task_path entry = true →
  entry_code E st task_path entry = Ret prog →
  finish prog = None →
  registers prog = true →
  find_spec E entry = Some (NoCode origin) →
  (∀ h, h ∈ required_funcs → is_Some (binds prog !! h)) →
  binds prog !! py "get_name" = Some (VFun (Returns (VStr s))) →
  s ∈ names ∧
  ∃ m, m ∈ modules ∧ mod_name m = entry ∧ mod_dict m = binds prog.
Proof.
  intros Hrun Hin Hcand Hcode Hfin Hreg Hfd Hall Hname.
  assert (∀ l acc st1 acc1 st2,
            same_code E st st1 →
            for_each (task_module_step E task_path) l acc st1
              = (Ret acc1, st2) →
            entry ∈ l →
            s ∈ acc1.1 ∧
            ∃ m, m ∈ acc1.2 ∧ mod_name m = entry ∧ mod_dict m = binds prog)
    as Hloop.
  { induction l as [|x l IH]; intros acc st1 acc1 st2 Hsame Hl Hx;
      simpl in Hl; [by apply elem_of_nil in Hx|].
    unfold bind in Hl.
    destruct (task_module_step E task_path acc x st1) as [[acc2|e] st3]
      eqn:Hstep; [|done].
    apply elem_of_cons in Hx as [<-|Hx].
    - rewrite <- (entry_code_same _ _ _ _ _ Hsame) in Hcode.
      pose proof (task_module_step_returns E task_path acc entry st1 prog
                    origin s Hcand Hcode Hfin Hreg Hfd Hall Hname) as Hround.
      rewrite Hstep in Hround. simpl in Hround. injection Hround as ->.
      apply for_each_task_module_step_names in Hl
        as (ss & ms & -> & _). simpl.
      split; [rewrite !elem_of_app, list_elem_of_singleton; auto|].
      match goal with
      | |- context [acc.2 ++ [?m]] => exists m
      end.
      split; [|done]. rewrite !elem_of_app, list_elem_of_singleton. auto.
    - apply (IH acc2 st3 acc1 st2); [|done..].
      apply task_module_step_state in Hstep as (_ & Hsame2 & _).
      by apply (same_code_trans _ _ st1). }
  revert Hrun Hin. unfold get_task_module, entries_of, bind, lift.
  destruct (listdir E task_path) as [entries|e]; [|done].
  intros Hrun Hin.
  exact (Hloop entries _ st _ st' (same_code_refl E st) Hrun Hin).
Qed.

Lemma one_incomplete_returns_task_A :
  py "A" ∈ [py "A"] ∧
  ∃ m, m ∈ [{| mod_id := 0; mod_name := py "task_A"; mod_origin := None;
               mod_dict := binds (valid_task "A") |}] ∧
       mod_name m = py "task_A" ∧
       mod_dict m = binds (self_registering (valid_task "A")).
Proof.
  eapply (registered_plugin_returned one_incomplete tasks st0 _ _ _
            (py "task_A") (self_registering (valid_task "A")) None (py "A")).
  - vm_compute. reflexivity.
  - left.
  - reflexivity.
  - reflexivity.
  - reflexivity.
  - reflexivity.
  - reflexivity.
  - intros h Hh. apply list_elem_of_In in Hh. vm_compute in Hh.
    destruct Hh as [<-|[<-|[<-|[<-|[]]]]]; by eexists.
  - reflexivity.
Defined.



(** ** The example run *)

(** What the example run amounts to. *)
Lemma main_unfold E st :
  main E st =
    match omap (λ subdir_name,
                  descriptor_of test_dir subdir_name
                    <$> sidecar_identity E test_dir subdir_name)
            (entries_of E test_dir) with
    | [] => (Ret NoTask, st)
    | selected_task_info :: _ =>
        match load_task_module E selected_task_info st with
        | (Ret (Some m), st1) =>
            (match call_attr m (py "main_proc") with
             | Ret _ => Ret Ran
             | Raise e => Raise e
             end, st1)
        | (Ret None, st1) => (Ret NotLoaded, st1)
        | (Raise e, st1) => (Raise e, st1)
        end
    end.
Proof.
  unfold main, bind at 1. rewrite get_task_info_list_identities.
  destruct (omap _ _) as [|info infos]; [done|].
  unfold bind at 1.
  destruct (load_task_module E info st) as [[[m|]|e] st1]; try done.
  unfold bind, lift, ret. by destruct (call_attr m (py "main_proc")).
Qed.

(** A load executes nothing, or the code obtained for the descriptor, once,
    in the module object it creates. *)
Lemma load_task_module_executions E task_info st :
  exec_log (load_task_module E task_info st).2 = exec_log st ∨
  exec_log (load_task_module E task_info st).2
    = exec_log st ++ [(main_py_path task_info, next_id st)].
Proof.
  destruct (loaded_code E st task_info) as [[prog|e]|] eqn:Hcode.
  - right. by apply (load_task_module_log E task_info st prog).
  - left. apply load_task_module_no_code. congruence.
  - left. apply load_task_module_no_code. congruence.
Qed.

(** X15. The example run loads lazily: it executes the code of at most one
    entry point, the [main.py] of the first descriptor that
    [get_task_info_list] returns, and that at most once; the code of the
    other plugins is not run. *)
Theorem main_executes_at_most_first E st :
  exec_log (main E st).2 = exec_log st ∨
  ∃ info infos,
    get_task_info_list E test_dir st = (Ret (info :: infos), st) ∧
    exec_log (main E st).2 = exec_log st ++ [(main_py_path info, next_id st)].
Proof.
  rewrite main_unfold, get_task_info_list_identities.
  destruct (omap _ _) as [|info infos]; [by left|].
  pose proof (load_task_module_executions E info st) as Hlog.
  destruct (load_task_module E info st) as [[[m|]|e] st1]; simpl in *;
    (destruct Hlog as [Hlog|Hlog]; [by left|right; by exists info, infos]).
Qed.

(** With two plugins ready to load, only the first one listed is run. *)
Example main_test_run :
  (main test_run st0).1 = Ret Ran ∧
  exec_log (main test_run st0).2 = [(entry_point test_dir (py "task_A"), 0)].
Proof. split; vm_compute; reflexivity. Qed.

(** X16. An exception leaves the example run only if it comes from the
    code of the first descriptor's plugin: raised outside [Exception] by its
    top-level code, or raised, whatever its class, by its [main_proc], whose
    call is not guarded. *)
Theorem main_raises E st e :
  (main E st).1 = Raise e →
  ∃ info infos prog,
    get_task_info_list E test_dir st = (Ret (info :: infos), st) ∧
    loaded_code E st info = Some (Ret prog) ∧
    (finish prog = Some e ∧ is_Exception e = false ∨
     finish prog = None ∧
     binds prog !! py "main_proc" = Some (VFun (Throws e))).
Proof.
  rewrite main_unfold, get_task_info_list_identities.
  destruct (omap _ _) as [|info infos]; [done|].
  destruct (load_task_module E info st) as [[[m|]|e'] st1] eqn:Hload;
    simpl; [|done|].
  - pose proof (f_equal fst Hload) as Hm. simpl in Hm.
    apply load_task_module_Some_iff in Hm
      as (prog & Hcode & Hfin & Hall & ->).
    rewrite Forall_forall in Hall.
    destruct (Hall (py "main_proc")) as [r Hr].
    { apply list_elem_of_In. vm_compute. tauto. }
    unfold call_attr. simpl. rewrite Hr. destruct r as [v|e']; [done|].
    intros [= <-]. exists info, infos, prog. auto.
  - intros [= <-]. pose proof (f_equal fst Hload) as He. simpl in He.
    apply load_task_module_raises in He as [He (prog & Hcode & Hfin)].
    exists info, infos, prog. auto.
Qed.

Lemma test_run_raising_escapes :
  ∃ info infos prog,
    get_task_info_list test_run_raising test_dir st0
      = (Ret (info :: infos), st0) ∧
    loaded_code test_run_raising st0 info = Some (Ret prog) ∧
    (finish prog = Some ValueError ∧ is_Exception ValueError = false ∨
     finish prog = None ∧
     binds prog !! py "main_proc" = Some (VFun (Throws ValueError))).
Proof.
  apply (main_raises test_run_raising st0 ValueError). reflexivity.
Defined.

(** The first descriptor of a directory whose first entry with an identity
    is [entry]. *)
Lemma first_descriptor E task_folder entry rest :
  filter (λ x, is_Some (sidecar_identity E task_folder x))
    (entries_of E task_folder) = entry :: rest →
  ∃ label infos,
    omap (λ subdir_name,
            descriptor_of task_folder subdir_name
              <$> sidecar_identity E task_folder subdir_name)
      (entries_of E task_folder)
    = descriptor_of task_folder entry label :: infos.
Proof.
  rewrite <- (omap_descriptor_names _ task_folder).
  destruct (omap _ _) as [|info infos] eqn:Hinfos; [done|].
  intros [= <- _].
  assert (info ∈ info :: infos) as Hin by left.
  rewrite <- Hinfos in Hin.
  apply elem_of_omap_descriptor in Hin as (_ & _ & Hinfo).
  exists (description info), infos. by rewrite <- Hinfo.
Qed.

(** The code obtained for a descriptor of the metadata-first flow is the
    code of the entry point it names. *)
Lemma loaded_code_descriptor_of E st task_folder entry label :
  loaded_code E st (descriptor_of task_folder entry label)
    = Some (entry_code E st task_folder entry).
Proof.
  unfold loaded_code, descriptor_of, entry_point.
  cbn [module_id main_py_path]. by rewrite spec_from_file_location_main.
Qed.

(** X17. Discovery, load and call compose: when the first entry of
    [test_dir] that has an identity holds a [main.py] whose code runs to
    completion, binds the four [REQUIRED_FUNCTIONS] to callables and has a
    [main_proc] that returns, the example run reports that it ran the
    plugin, and it has executed exactly that entry point, once. *)
Theorem main_runs_first_plugin E st entry rest prog v :
  filter (λ x, is_Some (sidecar_identity E test_dir x))
    (entries_of E test_dir) = entry :: rest →
  entry_code E st test_dir entry = Ret prog →
  finish prog = None →
  Forall (λ h, ∃ r, binds prog !! h = Some (VFun r)) REQUIRED_FUNCTIONS →
  binds prog !! py "main_proc" = Some (VFun (Returns v)) →
  (main E st).1 = Ret Ran ∧
  exec_log (main E st).2
    = exec_log st ++ [(entry_point test_dir entry, next_id st)].
Proof.
  intros (label & infos & Hfirst)%first_descriptor Hcode Hfin Hall Hmain.
  rewrite main_unfold, Hfirst.
  set (info := descriptor_of test_dir entry label).
  assert (loaded_code E st info = Some (Ret prog)) as Hloaded.
  { unfold info. by rewrite loaded_code_descriptor_of, Hcode. }
  destruct (load_task_module_log E info st prog Hloaded) as (_ & Hlog & _).
  assert ((load_task_module E info st).1
          = Ret (Some {| mod_id := next_id st; mod_name := module_id info;
                         mod_origin := Some (main_py_path info);
                         mod_dict := binds prog |})) as Hload.
  { apply load_task_module_Some_iff. by exists prog. }
  destruct (load_task_module E info st) as [r st1]. simpl in Hlog, Hload.
  subst r. unfold call_attr. simpl. by rewrite Hmain.
Qed.

Lemma test_run_runs_task_A :
  (main test_run st0).1 = Ret Ran ∧
  exec_log (main test_run st0).2
    = exec_log st0 ++ [(entry_point test_dir (py "task_A"), next_id st0)].
Proof.
  eapply (main_runs_first_plugin test_run st0 (py "task_A") _
            (valid_task "A")).
  - vm_compute. reflexivity.
  - reflexivity.
  - reflexivity.
  - repeat constructor; eexists; vm_compute; reflexivity.
  - vm_compute. reflexivity.
Defined.

(** X18. The example run reports that there is no task exactly when no
    entry of [test_dir] has an identity, in particular when [test_dir] is
    missing; it has done nothing then. *)
Theorem main_without_task E st :
  ((main E st).1 = Ret NoTask ↔
   filter (λ x, is_Some (sidecar_identity E test_dir x))
     (entries_of E test_dir) = []) ∧
  ((main E st).1 = Ret NoTask → (main E st).2 = st).
Proof.
  rewrite main_unfold, <- (omap_descriptor_names _ test_dir).
  destruct (omap _ _) as [|info infos]; [done|].
  assert ((let '(r, st1) := load_task_module E info st in
           match r with
           | Ret (Some m) =>
               (match call_attr m (py "main_proc") with
                | Ret _ => Ret Ran
                | Raise e => Raise e
                end, st1)
           | Ret None => (Ret NotLoaded, st1)
           | Raise e => (Raise e, st1)
           end).1 ≠ Ret NoTask) as Hne.
  { destruct (load_task_module E info st) as [[[m|]|e] st1]; simpl;
      [by destruct (call_attr m _)|done..]. }
  destruct (load_task_module E info st) as [[[m|]|e] st1]; simpl in *;
    (split; [split; [by intros ?|done]|by intros ?]).
Qed.

Lemma scenario_reports_no_task :
  (main scenario st0).1 = Ret NoTask ∧ (main scenario st0).2 = st0.
Proof.
  destruct (main_without_task scenario st0) as [Hiff Hst].
  assert ((main scenario st0).1 = Ret NoTask) as Hrun
    by (apply Hiff; vm_compute; reflexivity).
  split; [exact Hrun | exact (Hst Hrun)].
Defined.

(** ** The interface gate, where it holds *)



(** ** Plugins that import *)

(** What plugins import is left in [sys.modules], next to the module of a
    plugin that stores itself there: [task_A] imports [json] and is lost to
    the failing reload, [task_B] imports [json] and [task_A], stores its
    own module and is returned. *)
Example get_task_module_two_importing :
  (get_task_module two_importing tasks st0).1 =
    Ret ([py "B"],
         [{| mod_id := 1; mod_name := py "task_B"; mod_origin := None;
             mod_dict := binds (valid_task "B") |}]) ∧
  sys_modules (get_task_module two_importing tasks st0).2 =
    {[py "json" := Foreign; py "task_A" := Foreign;
      py "task_B" := Loaded 1]}.
Proof. split; vm_compute; reflexivity. Qed.
